(** * HalgoraeDO: the task service and the client user store

    A shallow embedding of [server/src/services/task.js] (the Sequelize-backed
    task service) and of the Vuex user store of the web client, with the
    properties of the specification stated and proved over them. *)

From Stdlib Require Import ZArith Lia Ascii String.
From stdpp Require Import gmap strings list sorting pretty.

Local Set Warnings "-register-all".
Local Open Scope string_scope.
Local Open Scope Z_scope.

(** * JavaScript values

    Request bodies, parsed JSON and the fields of the user object are dynamic
    values.  Numbers are the integer-valued ones, in the range where they
    print in plain decimal notation; an object keeps its own properties as an
    association list. *)

Inductive jsval : Type :=
| JSundefined
| JSnull
| JSbool (b : bool)
| JSnumber (n : Z)
| JSstring (s : string)
| JSarray (elems : list jsval)
| JSobject (props : list (string * jsval)).

(** [if (v)]: ToBoolean. *)
Definition truthy (v : jsval) : bool :=
  match v with
  | JSundefined | JSnull => false
  | JSbool b => b
  | JSnumber n => negb (Z.eqb n 0)
  | JSstring s => negb (String.eqb s "")
  | JSarray _ | JSobject _ => true
  end.

(** [Array.prototype.join]. *)
Fixpoint join (sep : string) (parts : list string) : string :=
  match parts with
  | [] => ""
  | [p] => p
  | p :: ps => p ++ sep ++ join sep ps
  end.

(** ToString, as [JSON.parse] applies it to its argument.  Inside an array
    [null] and [undefined] print as the empty string. *)
Fixpoint ToString (v : jsval) : string :=
  match v with
  | JSundefined => "undefined"
  | JSnull => "null"
  | JSbool true => "true"
  | JSbool false => "false"
  | JSnumber n => pretty n
  | JSstring s => s
  | JSarray elems =>
      join "," (List.map (fun e => match e with
                                   | JSundefined | JSnull => ""
                                   | _ => ToString e
                                   end) elems)
  | JSobject _ => "[object Object]"
  end.

(** [obj.key]: an absent property reads as [undefined]. *)
Fixpoint get_prop (props : list (string * jsval)) (key : string) : jsval :=
  match props with
  | [] => JSundefined
  | (k, v) :: rest => if String.eqb k key then v else get_prop rest key
  end.

(** * The client user store (Vuex module) *)

Module store.

(** [state.user] *)
Record User := { id : jsval; name : jsval; email : jsval }.

Record State := { user : User }.

Definition state : State :=
  {| user := {| id := JSstring ""; name := JSstring ""; email := JSstring "" |} |}.

(** What an action does besides returning, in the order it does it: a
    mutation committed with its payload, a blocking [alert] dialog, a call
    of [router.replace]. *)
Inductive Effect :=
| Committed (mutation : string) (payload : list (string * jsval))
| Alerted (msg : string)
| Replaced (path : string).

(** The page the action runs in: the store state, [location.pathname] and
    the effects so far, oldest first. *)
Record Page := {
  vuex : State;
  pathname : string;
  log : list Effect
}.

(** Modelled from the spec: [userAPI.authorize] of [@/api/user.js], which the
    store depends on as a call returning [{data: user}], the user being an
    object.  The awaited call either rejects or resolves with that object. *)
Inductive Authorize :=
| Rejected
| Resolved (data : list (string * jsval)).

Definition SET_USER (st : State) (u : list (string * jsval)) : State :=
  {| user := {| id := get_prop u "id";
                name := get_prop u "name";
                email := get_prop u "email" |} |}.

(** [commit("SET_USER", user)] *)
Definition commit_SET_USER (u : list (string * jsval)) (p : Page) : Page :=
  {| vuex := SET_USER (vuex p) u; pathname := pathname p;
     log := (log p ++ [Committed "SET_USER" u])%list |}.

Definition alert (msg : string) (p : Page) : Page :=
  {| vuex := vuex p; pathname := pathname p; log := (log p ++ [Alerted msg])%list |}.

(** [router.replace(path).catch(() => {})]: a refused navigation is
    swallowed, the call itself is what is recorded. *)
Definition router_replace (path : string) (p : Page) : Page :=
  {| vuex := vuex p; pathname := pathname p; log := (log p ++ [Replaced path])%list |}.

Definition checkUser (api : Authorize) (p : Page) : Page :=
  match api with
  | Resolved u =>
      let p := commit_SET_USER u p in
      if String.eqb (pathname p) "/" || String.eqb (pathname p) "/login"
      then router_replace "/today" p
      else router_replace (pathname p) p
  | Rejected =>
      let p := alert "로그인에 실패했습니다." p in
      router_replace "/login" p
  end.

(** The effects an action added to the log. *)
Definition is_commit (e : Effect) : bool :=
  match e with Committed _ _ => true | _ => false end.

(** The browser around the store: the entries of [localStorage] and the
    page loads asked of [location.replace], oldest first. *)
Record Browser := {
  page : Page;
  localStorage : gmap string string;
  loaded : list string
}.

(** The mutation takes no argument and does not read the state. *)
Definition LOGOUT (b : Browser) : Browser :=
  {| page := page b;
     localStorage := delete "token" (localStorage b);
     loaded := (loaded b ++ ["/login"])%list |}.

(** [commit("LOGOUT")]: the mutation has no payload, the log entry carries
    none. *)
Definition logout (b : Browser) : Browser :=
  LOGOUT {| page := {| vuex := vuex (page b); pathname := pathname (page b);
                       log := (log (page b) ++ [Committed "LOGOUT" []])%list |};
            localStorage := localStorage b;
            loaded := loaded b |}.

End store.

(** * The task cell of the iOS client

    [TaskCollectionViewListCell.updateConfiguration(using:)].  [Task] is a
    class, so a task is an object in a heap and the cell holds a weak
    reference to it: the reference reads [nil] once the object is gone. *)

Module cell.

(** The fields of [Task] the cell reads and writes. *)
Record Task := { title : string; isCompleted : bool }.

(** The fields of [TaskContentConfiguration] the cell sets. *)
Record TaskContentConfiguration := {
  c_title : option string;
  c_isCompleted : option bool
}.

Record Cell := {
  task : option nat;
  (** whether [completeHandler] is set *)
  completeHandler : bool;
  contentConfiguration : option TaskContentConfiguration
}.

(** The objects alive, the cell, and the calls of the cell's
    [completeHandler] with their argument, oldest first. *)
Record World := {
  heap : gmap nat Task;
  the_cell : Cell;
  calls : list (option nat)
}.

(** Reading the weak reference [task]. *)
Definition weak_task (w : World) : option nat :=
  r ← task (the_cell w); if heap w !! r is Some _ then Some r else None.

(** [updateConfiguration(using:)]: the configuration takes the title and the
    completion of the task.  The closure it hands to the content view is
    [toggled] below. *)
Definition updateConfiguration (w : World) : World :=
  let t := r ← weak_task w; heap w !! r in
  {| heap := heap w;
     the_cell :=
       {| task := task (the_cell w);
          completeHandler := completeHandler (the_cell w);
          contentConfiguration :=
            Some {| c_title := title <$> t; c_isCompleted := isCompleted <$> t |} |};
     calls := calls w |}.

(** The closure the content view calls on a toggle; [self] is captured
    weakly, [self_alive] tells whether the cell is still there. *)
Definition toggled (self_alive : bool) (value : bool) (w : World) : World :=
  if self_alive then
    {| heap := match weak_task w with
               | Some r => alter (fun t => {| title := title t; isCompleted := value |})
                                 r (heap w)
               | None => heap w
               end;
       the_cell := the_cell w;
       calls := if completeHandler (the_cell w)
                then (calls w ++ [weak_task w])%list
                else calls w |}
  else w.

End cell.

(** * The database behind the service

    The Sequelize models live outside the service file.  Each table is a
    finite map from primary key to row; the columns are those the data model
    of the specification names.  The includes ['priority'], ['alarm'] and
    ['bookmarks'] attach rows of tables that no operation of the service
    writes, and are left out. *)

Module project.
(** Modelled from the spec: a project row, with the user who created it. *)
Record t := { creatorId : Z }.
End project.

Module section.
(** Modelled from the spec: a section row, with the project it belongs to. *)
Record t := { projectId : Z }.
End section.

Module task.
(** Modelled from the spec: a task row.  [parentId] is the optional parent of
    a sub-task; [isDone] is [false] unless set. *)
Record t := {
  title : option string;
  isDone : bool;
  position : Z;
  dueDate : option string;
  sectionId : Z;
  projectId : Z;
  parentId : option Z
}.
End task.

Record DB := {
  projects : gmap Z project.t;
  sections : gmap Z section.t;
  tasks : gmap Z task.t;
  labels : gset Z;
  (** the join table of the task/label many-to-many association *)
  task_labels : gmap Z (gset Z)
}.

(** The fields a caller may leave in [...rest]; [None] is an absent key. *)
Record Rest := {
  r_title : option string;
  r_isDone : option bool;
  r_position : option Z;
  r_parentId : option Z
}.

(** The object handed to [task.update]: [{ dueDate, ...rest }], where in
    [update] the rest may also carry [projectId] and [sectionId].  A key whose
    value is [undefined] is skipped by the ORM. *)
Record Values := {
  v_dueDate : option string;
  v_projectId : option Z;
  v_sectionId : option Z;
  v_rest : Rest
}.

Definition set_values (vals : Values) (row : task.t) : task.t :=
  let r := v_rest vals in
  {| task.title := match r_title r with Some s => Some s | None => task.title row end;
     task.isDone := default (task.isDone row) (r_isDone r);
     task.position := default (task.position row) (r_position r);
     task.dueDate := match v_dueDate vals with Some d => Some d | None => task.dueDate row end;
     task.sectionId := default (task.sectionId row) (v_sectionId vals);
     task.projectId := default (task.projectId row) (v_projectId vals);
     task.parentId := match r_parentId r with Some p => Some p | None => task.parentId row end |}.

(** The row [models.task.create] builds from
    [{ projectId, sectionId, dueDate, position, ...rest }]: later keys of the
    literal win, so a [position] left in [rest] replaces the computed one;
    [isDone] defaults to [false]. *)
Definition new_row (projectId sectionId : Z) (dueDate : option string)
    (position : Z) (rest : Rest) : task.t :=
  {| task.title := r_title rest;
     task.isDone := default false (r_isDone rest);
     task.position := default position (r_position rest);
     task.dueDate := dueDate;
     task.sectionId := sectionId;
     task.projectId := projectId;
     task.parentId := r_parentId rest |}.

(** The key an inserted row gets: a key that is not in the table.  The model
    takes the one past the largest; the counter of the database may be
    further on, so the properties name the new key only as a free one. *)
Definition next_id {A} (m : gmap Z A) : Z :=
  1 + map_fold (fun k _ acc => Z.max k acc) 0 m.

(** ** Writes and transactions *)

Inductive Write :=
| InsertTask (id : Z) (row : task.t)
| UpdateTask (id : Z) (vals : Values)
| SetLabels (id : Z) (ids : list Z)
| DestroyTask (id : Z).

Definition with_tasks (db : DB) (ts : gmap Z task.t) : DB :=
  {| projects := projects db; sections := sections db; tasks := ts;
     labels := labels db; task_labels := task_labels db |}.

Definition with_task_labels (db : DB) (tl : gmap Z (gset Z)) : DB :=
  {| projects := projects db; sections := sections db; tasks := tasks db;
     labels := labels db; task_labels := tl |}.

(** Deleting a task row takes its join-table rows with it and detaches its
    sub-tasks (the ORM's defaults for the two associations). *)
Definition detach (id : Z) (row : task.t) : task.t :=
  if bool_decide (task.parentId row = Some id)
  then {| task.title := task.title row; task.isDone := task.isDone row;
          task.position := task.position row; task.dueDate := task.dueDate row;
          task.sectionId := task.sectionId row; task.projectId := task.projectId row;
          task.parentId := None |}
  else row.

Definition apply_write (w : Write) (db : DB) : DB :=
  match w with
  | InsertTask id row => with_tasks db (<[id := row]> (tasks db))
  | UpdateTask id vals => with_tasks db (alter (set_values vals) id (tasks db))
  | SetLabels id ids => with_task_labels db (<[id := list_to_set ids]> (task_labels db))
  | DestroyTask id =>
      {| projects := projects db; sections := sections db;
         tasks := detach id <$> delete id (tasks db);
         labels := labels db; task_labels := delete id (task_labels db) |}
  end.

(** The handle [t] of the one transaction a call opens. *)
Inductive Transaction := the_transaction.

(** A connection state: what is committed, and the writes the open
    transaction has made so far, oldest first. *)
Record Store := { committed : DB; pending : list Write }.

Definition apply_all (ws : list Write) (db : DB) : DB :=
  foldl (fun d w => apply_write w d) db ws.

(** What a query sees: with [{ transaction: t }] the transaction's own writes
    on top of the committed rows, without it the committed rows only. *)
Definition view (opt : option Transaction) (s : Store) : DB :=
  match opt with
  | Some _ => apply_all (pending s) (committed s)
  | None => committed s
  end.

(** * Errors and asynchronous code *)

Inductive ErrorClass := Error | TypeError | SyntaxError | DatabaseError.

(** A thrown error; [status] is [None] until the code sets the field. *)
Record JSError := { class : ErrorClass; message : string; status : option Z }.

Definition Async (A : Type) : Type := Store → Store * (JSError + A).

Definition resolve {A} (a : A) : Async A := fun s => (s, inr a).
Definition throw {A} (e : JSError) : Async A := fun s => (s, inl e).
Definition bind {A B} (c : Async A) (k : A → Async B) : Async B :=
  fun s => match c s with
           | (s', inr a) => k a s'
           | (s', inl e) => (s', inl e)
           end.
Definition try_catch {A} (body : Async A) (handler : JSError → Async A) : Async A :=
  fun s => match body s with
           | (s', inr a) => (s', inr a)
           | (s', inl e) => handler e s'
           end.

Notation "'await' x <- c ;; k" := (bind c (fun x => k))
  (at level 10, x name, c at level 99, k at level 200).
Notation "'exec' c ;; k" := (bind c (fun _ => k))
  (at level 10, c at level 99, k at level 200).

(** A query that writes: inside the transaction it is held back until the
    commit, outside it reaches the committed rows at once. *)
Definition write (w : Write) (opt : option Transaction) : Async unit :=
  fun s => match opt with
           | Some _ => ({| committed := committed s; pending := (pending s ++ [w])%list |}, inr tt)
           | None => ({| committed := apply_write w (committed s); pending := pending s |}, inr tt)
           end.

Definition read {A} (opt : option Transaction) (q : DB → A) : Async A :=
  fun s => (s, inr (q (view opt s))).

(** [t.rollback()] *)
Definition rollback (t : Transaction) : Async unit :=
  fun s => ({| committed := committed s; pending := [] |}, inr tt).

(** [sequelize.transaction(async t => ...)], the managed form: commit when the
    callback resolves, roll back and re-throw when it rejects. *)
Definition sequelize_transaction {A} (callback : Transaction → Async A) : Async A :=
  fun s => match callback the_transaction s with
           | (s', inr a) =>
               ({| committed := apply_all (pending s') (committed s'); pending := [] |}, inr a)
           | (s', inl e) =>
               ({| committed := committed s'; pending := [] |}, inl e)
           end.

(** A call of a service function on a database at rest. *)
Definition run {A} (call : Async A) (db : DB) : DB * (JSError + A) :=
  let '(s, r) := call {| committed := db; pending := [] |} in (committed s, r).

(** * The modules the service requires *)

Module errorCode.
(** Modelled from the spec: the constants of [@utils/error-codes], which is
    not part of the sources at hand; the specification gives the status codes
    surfaced as 404 (not found), 403 (forbidden) and 400 (bad request). *)
Definition NOT_FOUND_ERROR : Z := 404.
(** Modelled from the spec: the status code of a forbidden access. *)
Definition FORBIDDEN_ERROR : Z := 403.
(** Modelled from the spec: the status code of a bad request. *)
Definition BAD_REQUEST_ERROR : Z := 400.
End errorCode.

Module error_messages.
(** An export of [@utils/error-messages]: a plain string, or a function from a
    resource name to a string (kept with its source text, which is what
    [new Error(f)] prints). *)
Inductive entry :=
| Text (s : string)
| Function (source : string) (f : string → string).

(** The exports of [@utils/error-messages] the service uses.  The file is not
    part of the sources at hand, so the texts are left open.
    [NOT_FOUND_ERROR] and [WRONG_RELATION_ERROR] are only ever called;
    [FORBIDDEN_ERROR] is passed as a value in three places and called in one,
    so it is kept dynamic. *)
Record t := {
  NOT_FOUND_ERROR : string → string;
  FORBIDDEN_ERROR : entry;
  WRONG_RELATION_ERROR : string → string
}.

(** [new Error(e)] turns its argument into the message. *)
Definition as_message (e : entry) : string :=
  match e with
  | Text s => s
  | Function source _ => source
  end.
End error_messages.

(** [const error = new Error(msg); error.status = code;] *)
Definition new_Error (msg : string) (code : Z) : JSError :=
  {| class := Error; message := msg; status := Some code |}.

Definition not_a_function (what : string) : JSError :=
  {| class := TypeError; message := what ++ " is not a function"; status := None |}.

(** [e(arg)]: calling an export that is not a function throws. *)
Definition call (what : string) (e : error_messages.entry) (arg : string) : Async string :=
  match e with
  | error_messages.Function _ f => resolve (f arg)
  | error_messages.Text _ => throw (not_a_function what)
  end.

(** ** Authorization checks

    [@services/authorization-check] is not part of the sources at hand; the
    specification gives its contract: each predicate takes an entity id and a
    user id and tells, without side effect, whether the owning chain of the
    entity ends in a project whose [creatorId] is the user. *)

Module authorization_check.
(** What the service imports: three tests on the committed rows, each of an
    entity id and a user id. *)
Record t := {
  isTaskOwner : DB → Z → Z → bool;
  isProjectOwner : DB → Z → Z → bool;
  isSectionOwner : DB → Z → Z → bool
}.
End authorization_check.

(** The project exists and its [creatorId] is the user. *)
Definition creator_is (db : DB) (projectId userId : Z) : bool :=
  match projects db !! projectId with
  | Some p => bool_decide (project.creatorId p = userId)
  | None => false
  end.

(** Modelled from the spec: the predicates of
    [@services/authorization-check], following the owning chains task→project,
    project itself, and section→project to a [creatorId] equal to the user. *)
Definition ownership : authorization_check.t :=
  {| authorization_check.isTaskOwner := fun db id userId =>
       match tasks db !! id with
       | Some row => creator_is db (task.projectId row) userId
       | None => false
       end;
     authorization_check.isProjectOwner := fun db id userId =>
       creator_is db id userId;
     authorization_check.isSectionOwner := fun db id userId =>
       match sections db !! id with
       | Some sec => creator_is db (section.projectId sec) userId
       | None => false
       end |}.

(** ** The ORM calls of the service *)

Definition constraint_error : JSError :=
  {| class := DatabaseError; message := "foreign key constraint fails"; status := None |}.

(** The references of a task row resolve. *)
Definition references_ok (db : DB) (row : task.t) : bool :=
  bool_decide (is_Some (projects db !! task.projectId row))
  && bool_decide (is_Some (sections db !! task.sectionId row))
  && match task.parentId row with
     | Some p => bool_decide (is_Some (tasks db !! p))
     | None => true
     end.

(** [models.task.create(row, { transaction })]; resolves with the key of the
    new instance. *)
Definition task_create (row : task.t) (opt : option Transaction) : Async Z :=
  await db <- read opt (fun db => db) ;;
  if references_ok db row
  then exec write (InsertTask (next_id (tasks db)) row) opt ;;
       resolve (next_id (tasks db))
  else throw constraint_error.

(** [task.update(values, options)] on the instance with key [id]. *)
Definition task_update (id : Z) (vals : Values) (opt : option Transaction) : Async unit :=
  await db <- read opt (fun db => db) ;;
  match tasks db !! id with
  | Some row =>
      if references_ok db (set_values vals row)
      then write (UpdateTask id vals) opt
      else throw constraint_error
  | None => resolve tt
  end.

(** [task.save()] after [task.update]: the instance has no changed field
    left, so nothing is written. *)
Definition task_save (id : Z) : Async unit := resolve tt.

(** The integer a text of decimal digits, with an optional minus sign,
    stands for. *)
Fixpoint digits_value (acc : Z) (s : string) : option Z :=
  match s with
  | EmptyString => Some acc
  | String c s' =>
      let n := Z.of_nat (nat_of_ascii c) in
      if (48 <=? n) && (n <=? 57) then digits_value (10 * acc + (n - 48)) s' else None
  end.

Definition integer_text (s : string) : option Z :=
  match s with
  | EmptyString => None
  | String "-"%char EmptyString => None
  | String "-"%char s' => Z.opp <$> digits_value 0 s'
  | _ => digits_value 0 s
  end.

(** The instances [setLabels] makes of its argument: [null] clears the
    association, a value that is not an array stands for the one-element
    array, and each element is taken as the key of a label.  The key column is
    an integer: a number is the key itself, a string of digits is stored as
    the integer it spells, and a boolean as 1 or 0. *)
Definition label_key (v : jsval) : option Z :=
  match v with
  | JSnumber n => Some n
  | JSstring s => integer_text s
  | JSbool b => Some (if b then 1 else 0)
  | _ => None
  end.

Definition toInstanceArray (v : jsval) : option (list Z) :=
  match v with
  | JSnull => Some []
  | JSarray elems => mapM label_key elems
  | _ => mapM label_key [v]
  end.

(** [task.setLabels(value, { transaction })] on the instance with key [id]. *)
Definition setLabels (id : Z) (v : jsval) (opt : option Transaction) : Async unit :=
  await db <- read opt (fun db => db) ;;
  match toInstanceArray v with
  | Some ids =>
      if forallb (fun l => bool_decide (l ∈ labels db)) ids
      then write (SetLabels id ids) opt
      else throw constraint_error
  | None => throw constraint_error
  end.

(** [taskModel.destroy({ where: { id } })]; resolves with the number of rows
    the statement deleted. *)
Definition task_destroy (id : Z) (opt : option Transaction) : Async Z :=
  await db <- read opt (fun db => db) ;;
  exec write (DestroyTask id) opt ;;
  resolve (match tasks db !! id with Some _ => 1 | None => 0 end).

(** ** Eager loading: [include] and [order] *)

(** A loaded task with its labels. *)
Record Instance := { pk : Z; row : task.t; its_labels : list Z }.

(** A loaded task with the included sub-tasks. *)
Record Loaded := { self : Instance; its_tasks : list Instance }.

Definition instance_of (db : DB) (kr : Z * task.t) : Instance :=
  {| pk := kr.1; row := kr.2;
     its_labels := elements (default ∅ (task_labels db !! kr.1)) |}.

(** The rows of the self-join [task LEFT OUTER JOIN task AS tasks]. *)
Definition JoinRow : Type := (Z * task.t) * option (Z * task.t).

Definition children (db : DB) (id : Z) : list (Z * task.t) :=
  filter (fun kr => task.parentId kr.2 = Some id) (map_to_list (tasks db)).

(** A parent joins with each of its sub-tasks, or with NULL when it has
    none. *)
Definition rows_of (db : DB) (p : Z * task.t) : list JoinRow :=
  match children db p.1 with
  | [] => [(p, None)]
  | cs => (fun c => (p, Some c)) <$> cs
  end.

Definition join_rows (db : DB) (parents : list (Z * task.t)) : list JoinRow :=
  parents ≫= rows_of db.

(** [order: [[taskModel, 'position', 'ASC']]] names the included model: the
    joined rows are ordered by the position of the sub-task.  A row without
    sub-task (NULL) is put first, as MySQL does; no property below depends on
    where such rows go. *)
Definition by_subtask_position (r1 r2 : JoinRow) : Prop :=
  match r1.2, r2.2 with
  | None, _ => True
  | Some _, None => False
  | Some c1, Some c2 => task.position c1.2 ≤ task.position c2.2
  end.

Global Instance by_subtask_position_dec r1 r2 : Decision (by_subtask_position r1 r2).
Proof.
  unfold by_subtask_position.
  destruct (r1.2) as [c1|], (r2.2) as [c2|]; apply _.
Defined.

(** The parents in the order the rows first show them. *)
Fixpoint first_seen (l : list (Z * task.t)) : list (Z * task.t) :=
  match l with
  | [] => []
  | p :: l => p :: filter (fun q => q.1 ≠ p.1) (first_seen l)
  end.

Definition subtasks_in (rows : list JoinRow) (id : Z) : list (Z * task.t) :=
  omap (fun r : JoinRow => if bool_decide (r.1.1 = id) then r.2 else None) rows.

(** The instances the ORM builds from the ordered rows. *)
Definition load (db : DB) (parents : list (Z * task.t)) : list Loaded :=
  let rows := merge_sort by_subtask_position (join_rows db parents) in
  (fun p => {| self := instance_of db p;
               its_tasks := instance_of db <$> subtasks_in rows p.1 |})
    <$> first_seen (fst <$> rows).

Global Arguments load : simpl never.

(** * The task service *)

(** The tasks of a section, as [include: 'tasks'] loads them. *)
Definition tasks_of_section (db : DB) (sectionId : Z) : list (Z * task.t) :=
  filter (fun kr => task.sectionId kr.2 = sectionId) (map_to_list (tasks db)).

(** The error [JSON.parse] throws. *)
Definition syntax_error : JSError :=
  {| class := SyntaxError; message := "Unexpected token in JSON"; status := None |}.

Section service.

(** [JSON.parse] on the string its argument converts to: the parsed value, or
    [None] where it throws a [SyntaxError]. *)
Variable JSON_parse : string → option jsval.

(** [require('@utils/error-messages')] *)
Variable errorMessage : error_messages.t.

(** [require('@services/authorization-check')] *)
Variable authorization : authorization_check.t.

Definition isTaskOwner (id userId : Z) : Async bool :=
  read None (fun db => authorization_check.isTaskOwner authorization db id userId).

Definition isProjectOwner (id userId : Z) : Async bool :=
  read None (fun db => authorization_check.isProjectOwner authorization db id userId).

Definition isSectionOwner (id userId : Z) : Async bool :=
  read None (fun db => authorization_check.isSectionOwner authorization db id userId).

Definition JSON_parse_call (v : jsval) : Async jsval :=
  match JSON_parse (ToString v) with
  | Some parsed => resolve parsed
  | None => throw syntax_error
  end.

(** [taskModel.findByPk(id, { include, order })] of [retrieveById]. *)
Definition findByPk_included (id : Z) : Async (option Loaded) :=
  await db <- read None (fun db => db) ;;
  resolve (match tasks db !! id with
           | Some r => head (load db [(id, r)])
           | None => None
           end).

Definition retrieveById (id userId : Z) : Async Loaded :=
  await task <- findByPk_included id ;;
  match task with
  | None =>
      throw (new_Error (error_messages.NOT_FOUND_ERROR errorMessage "task")
                       errorCode.NOT_FOUND_ERROR)
  | Some task =>
      await owner <- isTaskOwner id userId ;;
      if negb owner
      then throw (new_Error
                    (error_messages.as_message (error_messages.FORBIDDEN_ERROR errorMessage))
                    errorCode.FORBIDDEN_ERROR)
      else resolve task
  end.

(** The rows [findAll] of [retrieveAll] selects: [where: { isDone: false }]
    and the required join with the project [where: { creatorId: userId }]. *)
Definition selected (db : DB) (userId : Z) (kr : Z * task.t) : bool :=
  negb (task.isDone kr.2) && creator_is db (task.projectId kr.2) userId.

Definition retrieveAll (userId : Z) : Async (list Loaded) :=
  await db <- read None (fun db => db) ;;
  resolve (load db (filter (fun kr => selected db userId kr) (map_to_list (tasks db)))).

(** [models.section.findByPk(sectionId, { include: 'tasks' })] *)
Definition section_findByPk (sectionId : Z)
  : Async (option (section.t * list (Z * task.t))) :=
  await db <- read None (fun db => db) ;;
  resolve (match sections db !! sectionId with
           | Some sec => Some (sec, tasks_of_section db sectionId)
           | None => None
           end).

Definition create (projectId sectionId userId : Z) (labelIdList : jsval)
    (dueDate : option string) (rest : Rest) : Async bool :=
  await project <- read None (fun db => projects db !! projectId) ;;
  match project with
  | None =>
      throw (new_Error (error_messages.NOT_FOUND_ERROR errorMessage "project")
                       errorCode.NOT_FOUND_ERROR)
  | Some _ =>
  await owner <- isProjectOwner projectId userId ;;
  if negb owner
  then throw (new_Error
                (error_messages.as_message (error_messages.FORBIDDEN_ERROR errorMessage))
                errorCode.FORBIDDEN_ERROR)
  else
  await result <- sequelize_transaction (fun t =>
    await section <- section_findByPk sectionId ;;
    match section with
    | None =>
        throw (new_Error (error_messages.NOT_FOUND_ERROR errorMessage "section")
                         errorCode.NOT_FOUND_ERROR)
    | Some (section, section_tasks) =>
    await owner <- isSectionOwner sectionId userId ;;
    if negb owner
    then await msg <- call "errorMessage.FORBIDDEN_ERROR"
                           (error_messages.FORBIDDEN_ERROR errorMessage) "section" ;;
         throw (new_Error msg errorCode.NOT_FOUND_ERROR)
    else
    if negb (bool_decide (section.projectId section = projectId))
    then throw (new_Error
                  (error_messages.WRONG_RELATION_ERROR errorMessage "project, section")
                  errorCode.BAD_REQUEST_ERROR)
    else
    let maxPosition :=
      foldl (fun max task => Z.max max (task.position task.2)) 0 section_tasks in
    await task <- task_create
                    (new_row projectId sectionId dueDate (maxPosition + 1) rest)
                    (Some t) ;;
    exec (if truthy labelIdList
          then await ids <- JSON_parse_call labelIdList ;;
               setLabels task ids (Some t)
          else resolve tt) ;;
    resolve task
    end) ;;
  (* [!!result]: the instance is an object *)
  resolve true
  end.

Definition update (id : Z) (labelIdList : jsval) (dueDate : option string)
    (userId : Z) (projectId sectionId : option Z) (rest : Rest) : Async bool :=
  await result <- sequelize_transaction (fun t =>
    try_catch
      (await task <- read (Some t) (fun db => tasks db !! id) ;;
       match task with
       | None =>
           throw (new_Error (error_messages.NOT_FOUND_ERROR errorMessage "task")
                            errorCode.NOT_FOUND_ERROR)
       | Some _ =>
       await owner <- isTaskOwner id userId ;;
       if negb owner
       then throw (new_Error
                     (error_messages.as_message (error_messages.FORBIDDEN_ERROR errorMessage))
                     errorCode.FORBIDDEN_ERROR)
       else
       exec task_update id {| v_dueDate := dueDate; v_projectId := projectId;
                              v_sectionId := sectionId; v_rest := rest |} None ;;
       exec (if truthy labelIdList
             then await ids <- JSON_parse_call labelIdList ;;
                  setLabels id ids (Some t)
             else resolve tt) ;;
       exec task_save id ;;
       resolve true
       end)
      (fun err =>
         exec rollback t ;;
         throw err)) ;;
  resolve result.

Definition remove (id : Z) : Async Z :=
  await result <- task_destroy id None ;;
  resolve result.

End service.

(** * Instances of the open parts

    The properties below hold for every [JSON.parse] and every message
    module.  The instances here serve to run the service on concrete
    requests. *)

Module json.

Definition is_ws (c : ascii) : bool :=
  match c with
  | " "%char | "009"%char | "010"%char | "013"%char => true
  | _ => false
  end.

Fixpoint skip_ws (s : string) : string :=
  match s with
  | String c s' => if is_ws c then skip_ws s' else s
  | EmptyString => s
  end.

Definition digit (c : ascii) : option Z :=
  let n := Z.of_nat (nat_of_ascii c) in
  if (48 <=? n) && (n <=? 57) then Some (n - 48) else None.

Fixpoint digits (acc : Z) (s : string) : Z * string :=
  match s with
  | String c s' =>
      match digit c with
      | Some d => digits (10 * acc + d) s'
      | None => (acc, s)
      end
  | EmptyString => (acc, s)
  end.

(** An integer numeral: zero, or a nonzero digit and more digits. *)
Definition unsigned (s : string) : option (Z * string) :=
  match s with
  | String c s' =>
      match digit c with
      | Some 0 =>
          match s' with
          | String c' _ => if is_Some_dec (digit c') then None else Some (0, s')
          | EmptyString => Some (0, s')
          end
      | Some _ => Some (digits 0 s)
      | None => None
      end
  | EmptyString => None
  end.

(** An optional minus sign and a numeral, not followed by a fraction or an
    exponent. *)
Definition integer (s : string) : option (Z * string) :=
  r ← match s with
      | String "-"%char s' => prod_map Z.opp id <$> unsigned s'
      | _ => unsigned s
      end;
  match r.2 with
  | String "."%char _ | String "e"%char _ | String "E"%char _ => None
  | _ => Some r
  end.

Fixpoint strip (prefix s : string) : option string :=
  match prefix, s with
  | EmptyString, _ => Some s
  | String a p, String b s' => if Ascii.eqb a b then strip p s' else None
  | String _ _, EmptyString => None
  end.

(** A string literal without escapes. *)
Fixpoint chars (s : string) : option (string * string) :=
  match s with
  | EmptyString => None
  | String c s' =>
      if Ascii.eqb c "034"%char then Some ("", s')
      else if Ascii.eqb c "\"%char || (Z.of_nat (nat_of_ascii c) <? 32) then None
      else prod_map (String c) id <$> chars s'
  end.

Definition scalar (s : string) : option (jsval * string) :=
  match s with
  | String "034"%char s' => prod_map JSstring id <$> chars s'
  | _ =>
      match strip "null" s, strip "true" s, strip "false" s with
      | Some r, _, _ => Some (JSnull, r)
      | _, Some r, _ => Some (JSbool true, r)
      | _, _, Some r => Some (JSbool false, r)
      | _, _, _ => prod_map JSnumber id <$> integer s
      end
  end.

Fixpoint value (fuel : nat) (s : string) : option (jsval * string) :=
  match fuel with
  | O => None
  | S fuel =>
      match skip_ws s with
      | String "["%char s' =>
          match skip_ws s' with
          | String "]"%char r => Some (JSarray [], r)
          | _ => prod_map JSarray id <$> items fuel s'
          end
      | s' => scalar s'
      end
  end
with items (fuel : nat) (s : string) : option (list jsval * string) :=
  match fuel with
  | O => None
  | S fuel =>
      r ← value fuel s;
      match skip_ws r.2 with
      | String ","%char s' => prod_map (cons r.1) id <$> items fuel s'
      | String "]"%char s' => Some ([r.1], s')
      | _ => None
      end
  end.

(** A reader for the JSON texts made of [null], [true], [false], integers,
    string literals without escapes, and arrays of these; every other text is
    reported as not parseable. *)
Definition parse (text : string) : option jsval :=
  r ← value (S (2 * String.length text)) text;
  match skip_ws r.2 with
  | EmptyString => Some r.1
  | _ => None
  end.

End json.

(** A message module whose [FORBIDDEN_ERROR] is a function. *)
Definition sample_messages : error_messages.t :=
  {| error_messages.NOT_FOUND_ERROR := fun what => what ++ " not found";
     error_messages.FORBIDDEN_ERROR :=
       error_messages.Function "what => `${what} forbidden`"
                               (fun what => what ++ " forbidden");
     error_messages.WRONG_RELATION_ERROR := fun what => what ++ " wrong relation" |}.

(** A message module whose [FORBIDDEN_ERROR] is a plain string. *)
Definition text_messages : error_messages.t :=
  {| error_messages.NOT_FOUND_ERROR := fun what => what ++ " not found";
     error_messages.FORBIDDEN_ERROR := error_messages.Text "forbidden";
     error_messages.WRONG_RELATION_ERROR := fun what => what ++ " wrong relation" |}.

(** A small database to run the service on: user 10 created projects 1 and
    3, user 20 created project 2; each project has the section of the same
    number. *)
Module sample.

Definition a_task (position : Z) (isDone : bool) (sectionId projectId : Z)
    (parentId : option Z) : task.t :=
  {| task.title := None; task.isDone := isDone; task.position := position;
     task.dueDate := None; task.sectionId := sectionId;
     task.projectId := projectId; task.parentId := parentId |}.

Definition db : DB :=
  {| projects := {[ 1 := {| project.creatorId := 10 |};
                    2 := {| project.creatorId := 20 |};
                    3 := {| project.creatorId := 10 |} ]};
     sections := {[ 1 := {| section.projectId := 1 |};
                    2 := {| section.projectId := 2 |};
                    3 := {| section.projectId := 3 |} ]};
     tasks := {[ 1 := a_task 2 false 1 1 None;
                 2 := a_task 1 false 1 1 None;
                 3 := a_task 1 true 1 1 (Some 1);
                 4 := a_task 2 true 1 1 (Some 2);
                 7 := a_task (-3) true 3 3 None ]};
     labels := {[ 5; 6 ]};
     task_labels := ∅ |}.

Definition no_rest : Rest :=
  {| r_title := None; r_isDone := None; r_position := None; r_parentId := None |}.

Definition page : store.Page :=
  {| store.vuex := store.state; store.pathname := "/project/3"; store.log := [] |}.

Definition user : list (string * jsval) :=
  [("id", JSnumber 10); ("email", JSstring "whale@example.com");
   ("name", JSstring "whale"); ("provider", JSstring "naver")].

(** Task 2 is a sub-task of task 1; neither is done. *)
Definition nested : DB :=
  {| projects := {[ 1 := {| project.creatorId := 10 |} ]};
     sections := {[ 1 := {| section.projectId := 1 |} ]};
     tasks := {[ 1 := a_task 1 false 1 1 None;
                 2 := a_task 1 false 1 1 (Some 1) ]};
     labels := ∅;
     task_labels := ∅ |}.

Definition browser : store.Browser :=
  {| store.page := page;
     store.localStorage := {[ "token" := "eyJhbGciOi"; "theme" := "dark" ]};
     store.loaded := [] |}.

(** A cell showing the task at address 1, among two tasks alive. *)
Definition world : cell.World :=
  {| cell.heap := {[ 1%nat := {| cell.title := "buy milk"; cell.isCompleted := false |};
                     2%nat := {| cell.title := "call home"; cell.isCompleted := true |} ]};
     cell.the_cell := {| cell.task := Some 1%nat; cell.completeHandler := true;
                         cell.contentConfiguration := None |};
     cell.calls := [] |}.

End sample.

(** * Notions used in the statements *)

(** Rows of one table: the key determines the row. *)
Definition keyed (l : list (Z * task.t)) : Prop :=
  ∀ x y, x ∈ l → y ∈ l → x.1 = y.1 → x = y.

(** Ascending position. *)
Definition by_position (c1 c2 : Z * task.t) : Prop :=
  task.position c1.2 ≤ task.position c2.2.

(** The error of a caller who is not the owner of the task. *)
Definition forbidden (errorMessage : error_messages.t) : JSError :=
  new_Error (error_messages.as_message (error_messages.FORBIDDEN_ERROR errorMessage))
            errorCode.FORBIDDEN_ERROR.

(** * Properties of the client store *)

(** C7: when the authorize call fails, [checkUser] alerts the login-failure
    message, then replaces the route with [/login], which is its last
    effect; it commits nothing and leaves the store state as it was. *)
Theorem checkUser_authorize_fails (p : store.Page) :
  let p' := store.checkUser store.Rejected p in
  store.log p' = (store.log p ++ [store.Alerted "로그인에 실패했습니다."; store.Replaced "/login"])%list
  ∧ last (store.log p') = Some (store.Replaced "/login")
  ∧ store.vuex p' = store.vuex p
  ∧ forallb (fun e => negb (store.is_commit e))
            (drop (List.length (store.log p)) (store.log p')) = true.
Proof.
  cbn. repeat split.
  - by rewrite <- app_assoc.
  - by rewrite last_snoc.
  - rewrite <- app_assoc, drop_app_length. reflexivity.
Qed.

(** Reading a property gives the value of the first entry under that key. *)
Lemma get_prop_first (pre post : list (string * jsval)) (key : string) (v : jsval) :
  (∀ w, (key, w) ∉ pre) → get_prop (pre ++ (key, v) :: post) key = v.
Proof.
  induction pre as [|[k w] pre IH]; intros Hpre; cbn.
  - by rewrite String.eqb_refl.
  - destruct (String.eqb_spec k key) as [->|_].
    + destruct (Hpre w). left.
    + apply IH. intros w' Hw'. apply (Hpre w'). by right.
Qed.

(** A key that no entry carries reads as [undefined]. *)
Lemma get_prop_none (u : list (string * jsval)) (key : string) :
  (∀ w, (key, w) ∉ u) → get_prop u key = JSundefined.
Proof.
  induction u as [|[k w] u IH]; intros Hu; [done|]. cbn.
  destruct (String.eqb_spec k key) as [->|_].
  - destruct (Hu w). left.
  - apply IH. intros w' Hw'. apply (Hu w'). by right.
Qed.

(** C8: when the authorize call succeeds, [checkUser] commits [SET_USER],
    which stores exactly the [id], [name] and [email] of the user object (the
    value the object has under each key, [undefined] for a key it lacks; the
    state has no other field), and then replaces the route: with [/today] when
    the current path is [/] or [/login], with the current path otherwise. *)
Theorem checkUser_authorize_succeeds (u : list (string * jsval)) (p : store.Page) :
  let p' := store.checkUser (store.Resolved u) p in
  let stored := store.user (store.vuex p') in
  (∀ pre v post, u = (pre ++ ("id", v) :: post)%list → (∀ w, ("id", w) ∉ pre) →
                 store.id stored = v)
  ∧ ((∀ w, ("id", w) ∉ u) → store.id stored = JSundefined)
  ∧ (∀ pre v post, u = (pre ++ ("name", v) :: post)%list → (∀ w, ("name", w) ∉ pre) →
                   store.name stored = v)
  ∧ ((∀ w, ("name", w) ∉ u) → store.name stored = JSundefined)
  ∧ (∀ pre v post, u = (pre ++ ("email", v) :: post)%list → (∀ w, ("email", w) ∉ pre) →
                   store.email stored = v)
  ∧ ((∀ w, ("email", w) ∉ u) → store.email stored = JSundefined)
  ∧ (store.pathname p = "/" ∨ store.pathname p = "/login" →
     store.log p' = (store.log p ++ [store.Committed "SET_USER" u; store.Replaced "/today"])%list)
  ∧ (store.pathname p ≠ "/" → store.pathname p ≠ "/login" →
     store.log p' = (store.log p ++ [store.Committed "SET_USER" u;
                                    store.Replaced (store.pathname p)])%list).
Proof.
  assert (store.user (store.vuex (store.checkUser (store.Resolved u) p))
          = {| store.id := get_prop u "id"; store.name := get_prop u "name";
               store.email := get_prop u "email" |}) as Hstored.
  { unfold store.checkUser. by destruct (_ || _). }
  cbv zeta. rewrite Hstored. cbn [store.id store.name store.email].
  split_and!.
  - intros pre v post -> Hpre. by apply get_prop_first.
  - apply get_prop_none.
  - intros pre v post -> Hpre. by apply get_prop_first.
  - apply get_prop_none.
  - intros pre v post -> Hpre. by apply get_prop_first.
  - apply get_prop_none.
  - unfold store.checkUser. cbn. intros [->| ->]; cbn; by rewrite <- app_assoc.
  - unfold store.checkUser. cbn. intros N1 N2.
    destruct (String.eqb_spec (store.pathname p) "/") as [E1|_]; [done|].
    destruct (String.eqb_spec (store.pathname p) "/login") as [E2|_]; [done|].
    cbn. by rewrite <- app_assoc.
Qed.

Lemma checkUser_authorize_succeeds_witness :
  store.id (store.user (store.vuex
    (store.checkUser (store.Resolved sample.user) sample.page))) = JSnumber 10
  ∧ store.name (store.user (store.vuex
      (store.checkUser (store.Resolved sample.user) sample.page))) = JSstring "whale"
  ∧ store.email (store.user (store.vuex
      (store.checkUser (store.Resolved sample.user) sample.page)))
    = JSstring "whale@example.com"
  ∧ store.log (store.checkUser (store.Resolved sample.user) sample.page)
    = [store.Committed "SET_USER" sample.user; store.Replaced "/project/3"].
Proof.
  destruct (checkUser_authorize_succeeds sample.user sample.page)
    as (Hid & _ & Hname & _ & Hemail & _ & _ & Hlog).
  split_and!.
  - apply (Hid [] (JSnumber 10)
             [("email", JSstring "whale@example.com"); ("name", JSstring "whale");
              ("provider", JSstring "naver")]); [reflexivity|].
    intros w Hw. by apply elem_of_nil in Hw.
  - apply (Hname [("id", JSnumber 10); ("email", JSstring "whale@example.com")]
             (JSstring "whale") [("provider", JSstring "naver")]); [reflexivity|].
    intros w Hw. repeat (apply elem_of_cons in Hw as [[=]|Hw]).
    by apply elem_of_nil in Hw.
  - apply (Hemail [("id", JSnumber 10)] (JSstring "whale@example.com")
             [("name", JSstring "whale"); ("provider", JSstring "naver")]);
      [reflexivity|].
    intros w Hw. repeat (apply elem_of_cons in Hw as [[=]|Hw]).
    by apply elem_of_nil in Hw.
  - apply Hlog; discriminate.
Defined.

(** * Properties of eager loading *)

Global Instance by_subtask_position_total : Total by_subtask_position.
Proof.
  intros [p1 [c1|]] [p2 [c2|]]; unfold by_subtask_position; cbn; try tauto.
  lia.
Qed.

Global Instance by_subtask_position_trans : Transitive by_subtask_position.
Proof.
  intros [p1 [c1|]] [p2 [c2|]] [p3 [c3|]]; unfold by_subtask_position; cbn;
    try tauto.
  lia.
Qed.

Lemma first_seen_subseteq (l : list (Z * task.t)) x :
  x ∈ first_seen l → x ∈ l.
Proof.
  induction l as [|p l IH]; cbn; [done|].
  rewrite !elem_of_cons, list_elem_of_filter.
  intros [->|[_ Hx]]; [by left|right; by apply IH].
Qed.

Lemma first_seen_key (l : list (Z * task.t)) x :
  x ∈ l → ∃ y, y ∈ first_seen l ∧ y.1 = x.1.
Proof.
  induction l as [|p l IH]; cbn; [by intros ?%elem_of_nil|].
  intros [->|Hx]%elem_of_cons.
  - exists p. split; [left|done].
  - destruct (IH Hx) as (y & Hy & Hk).
    destruct (decide (y.1 = p.1)) as [E|N].
    + exists p. split; [left|congruence].
    + exists y. split; [|done]. right. by apply list_elem_of_filter.
Qed.

Lemma first_seen_NoDup (l : list (Z * task.t)) : NoDup (fst <$> first_seen l).
Proof.
  induction l as [|p l IH]; cbn; [constructor|].
  apply NoDup_cons. split.
  - intros (y & Hk & Hy)%list_elem_of_fmap.
    apply list_elem_of_filter in Hy as [Hne _]. by apply Hne.
  - apply (sublist_NoDup _ (fst <$> first_seen l)); [exact IH|].
    apply fmap_sublist, sublist_filter.
Qed.

Lemma first_seen_elem_of (l : list (Z * task.t)) x :
  keyed l → x ∈ first_seen l ↔ x ∈ l.
Proof.
  intros Hk. split; [apply first_seen_subseteq|].
  intros Hx. destruct (first_seen_key l x Hx) as (y & Hy & E).
  by rewrite <- (Hk y x (first_seen_subseteq _ _ Hy) Hx E).
Qed.

Lemma NoDup_fst_keyed (l : list (Z * task.t)) : NoDup (fst <$> l) → keyed l.
Proof.
  intros Hnd x y Hx Hy E.
  apply list_elem_of_lookup in Hx as [i Hi], Hy as [j Hj].
  assert (i = j) as ->; [|congruence].
  eapply NoDup_lookup; [exact Hnd| |]; rewrite list_lookup_fmap.
  - by rewrite Hi.
  - by rewrite Hj, E.
Qed.

Lemma elem_of_join_rows (db : DB) (parents : list (Z * task.t)) (r : JoinRow) :
  r ∈ join_rows db parents ↔
  r.1 ∈ parents ∧ match r.2 with
                  | Some c => c ∈ children db r.1.1
                  | None => children db r.1.1 = []
                  end.
Proof.
  unfold join_rows. rewrite list_elem_of_bind. destruct r as [p c]; cbn. split.
  - intros (q & Hr & Hq). unfold rows_of in Hr.
    destruct (children db q.1) as [|c0 cs] eqn:E.
    + apply list_elem_of_singleton in Hr. by simplify_eq.
    + apply (list_elem_of_fmap (fun c => (q, Some c)) (c0 :: cs)) in Hr
        as (c' & ? & Hc'). simplify_eq. cbn. by rewrite E.
  - intros [Hp Hc]. exists p. split; [|done]. unfold rows_of.
    destruct c as [c|].
    + destruct (children db p.1) as [|c0 cs]; [by apply elem_of_nil in Hc|].
      by apply (list_elem_of_fmap_2 (fun c => (p, Some c)) (c0 :: cs)).
    + rewrite Hc. by apply list_elem_of_singleton.
Qed.

Lemma fst_join_rows (db : DB) (parents : list (Z * task.t)) p :
  p ∈ fst <$> join_rows db parents ↔ p ∈ parents.
Proof.
  rewrite list_elem_of_fmap. split.
  - intros (r & -> & Hr). by apply elem_of_join_rows in Hr as [? _].
  - intros Hp. destruct (children db p.1) as [|c cs] eqn:E.
    + exists (p, None). split; [done|]. by apply elem_of_join_rows.
    + exists (p, Some c). split; [done|]. apply elem_of_join_rows. cbn.
      rewrite E. split; [done|left].
Qed.

(** The loaded parents are the parents handed in, each once. *)
Lemma load_selves (db : DB) (parents : list (Z * task.t)) :
  NoDup (fst <$> parents) →
  NoDup (pk ∘ self <$> load db parents)
  ∧ ∀ v, v ∈ load db parents ↔
         ∃ p, p ∈ parents
              ∧ v = {| self := instance_of db p;
                       its_tasks :=
                         instance_of db <$>
                           subtasks_in (merge_sort by_subtask_position
                                          (join_rows db parents)) p.1 |}.
Proof.
  intros Hnd. unfold load.
  set (rows := merge_sort by_subtask_position (join_rows db parents)).
  assert (∀ p, p ∈ fst <$> rows ↔ p ∈ parents) as Hrows.
  { intros p. unfold rows. rewrite merge_sort_Permutation. apply fst_join_rows. }
  assert (keyed (fst <$> rows)) as Hkeyed.
  { intros x y Hx%Hrows Hy%Hrows. by apply (NoDup_fst_keyed parents). }
  split.
  - rewrite <- list_fmap_compose. exact (first_seen_NoDup (fst <$> rows)).
  - intros v. rewrite list_elem_of_fmap. split.
    + intros (p & -> & Hp). exists p. split; [|done].
      by apply Hrows, first_seen_subseteq.
    + intros (p & Hp & ->). exists p. split; [done|].
      by apply first_seen_elem_of, Hrows.
Qed.

Lemma subtasks_in_join_rows (db : DB) (parents : list (Z * task.t)) (id : Z) :
  NoDup (fst <$> parents) →
  subtasks_in (join_rows db parents) id
  = if decide (id ∈ fst <$> parents) then children db id else [].
Proof.
  unfold subtasks_in, join_rows.
  induction parents as [|q ps IH]; intros Hnd; [done|].
  rewrite fmap_cons in Hnd. apply NoDup_cons in Hnd as [Hq Hps].
  rewrite bind_cons, omap_app, (IH Hps). clear IH.
  assert (omap (fun r : JoinRow => if bool_decide (r.1.1 = id) then r.2 else None)
               (rows_of db q)
          = if decide (q.1 = id) then children db q.1 else []) as ->.
  { unfold rows_of. destruct (children db q.1) as [|c cs].
    - cbn. by repeat case_decide; case_bool_decide.
    - generalize (c :: cs). intros l. case_decide.
      + induction l as [|x l IHl]; [done|]. cbn.
        rewrite bool_decide_eq_true_2 by done. cbn. f_equal. exact IHl.
      + induction l as [|x l IHl]; [done|]. cbn.
        rewrite bool_decide_eq_false_2 by done. exact IHl. }
  rewrite fmap_cons. destruct (decide (q.1 = id)) as [<-|Hne].
  - rewrite (decide_False (P := q.1 ∈ fst <$> ps)) by done.
    rewrite decide_True by left. apply app_nil_r.
  - cbn. case_decide as Hin.
    + rewrite decide_True by (by right). done.
    + rewrite decide_False; [done|]. intros [?|?]%elem_of_cons; done.
Qed.

(** The sub-tasks loaded under a parent are its children, each once. *)
Lemma load_subtasks (db : DB) (parents : list (Z * task.t)) (p : Z * task.t) :
  NoDup (fst <$> parents) → p ∈ parents →
  subtasks_in (merge_sort by_subtask_position (join_rows db parents)) p.1
  ≡ₚ children db p.1.
Proof.
  intros Hnd Hp. unfold subtasks_in at 1.
  rewrite merge_sort_Permutation. fold (subtasks_in (join_rows db parents) p.1).
  rewrite subtasks_in_join_rows by done.
  rewrite decide_True; [done|]. by apply list_elem_of_fmap_2.
Qed.

(** Ordered rows give each parent its sub-tasks in ascending position. *)
Lemma subtasks_in_sorted (rows : list JoinRow) (id : Z) :
  StronglySorted by_subtask_position rows →
  StronglySorted by_position (subtasks_in rows id).
Proof.
  unfold subtasks_in.
  induction 1 as [|r rows Hss IH Hall]; cbn; [constructor|].
  case_bool_decide; [|exact IH].
  destruct r as [q [c|]]; cbn; [|exact IH].
  constructor; [exact IH|].
  apply Forall_forall. intros c' (r' & Hr' & Hf)%list_elem_of_omap.
  rewrite Forall_forall in Hall. specialize (Hall r' Hr').
  case_bool_decide; [|done].
  unfold by_subtask_position in Hall. cbn in Hall. by rewrite Hf in Hall.
Qed.

Lemma elem_of_children (db : DB) (id : Z) (c : Z * task.t) :
  c ∈ children db id ↔ tasks db !! c.1 = Some c.2 ∧ task.parentId c.2 = Some id.
Proof.
  unfold children. rewrite list_elem_of_filter. destruct c as [k r]; cbn.
  rewrite elem_of_map_to_list. tauto.
Qed.

Lemma children_NoDup (db : DB) (id : Z) : NoDup (fst <$> children db id).
Proof.
  apply (sublist_NoDup _ (fst <$> map_to_list (tasks db))).
  - apply NoDup_fst_map_to_list.
  - apply fmap_sublist, sublist_filter.
Qed.

Lemma filter_none {A} (P : A → Prop) `{∀ x, Decision (P x)} (l : list A) :
  (∀ x, x ∈ l → ¬ P x) → filter P l = [].
Proof.
  induction l as [|a l IH]; intros Hl; [done|].
  rewrite filter_cons, decide_False by (apply Hl; left).
  apply IH. intros x Hx. apply Hl. by right.
Qed.

(** One parent loads as one instance. *)
Lemma load_one (db : DB) (p : Z * task.t) :
  ∃ v, load db [p] = [v] ∧ self v = instance_of db p.
Proof.
  unfold load.
  set (rows := merge_sort by_subtask_position (join_rows db [p])).
  assert (∀ q, q ∈ fst <$> rows → q = p) as Hall.
  { intros q. unfold rows. rewrite merge_sort_Permutation, fst_join_rows.
    apply list_elem_of_singleton. }
  assert (p ∈ fst <$> rows) as Hp.
  { unfold rows. rewrite merge_sort_Permutation, fst_join_rows. left. }
  assert (first_seen (fst <$> rows) = [p]) as ->; [|by eexists].
  revert Hall Hp. generalize (fst <$> rows). intros l Hall Hp.
  destruct l as [|q l]; [by apply elem_of_nil in Hp|]. cbn.
  rewrite (Hall q) by left. f_equal.
  apply filter_none. intros x Hx%first_seen_subseteq.
  rewrite (Hall x) by (by right). by intros [].
Qed.

(** * Properties of the task service *)

(** Unfolds the plumbing of asynchronous code, leaving the queries. *)
Ltac async :=
  cbv [run bind read throw resolve try_catch sequelize_transaction rollback
       write view isTaskOwner isProjectOwner isSectionOwner call
       task_save task_destroy task_create task_update setLabels
       section_findByPk JSON_parse_call apply_all];
  cbn.

Lemma next_id_above {A} (m : gmap Z A) (k : Z) : is_Some (m !! k) → k < next_id m.
Proof.
  unfold next_id.
  enough (∀ k, is_Some (m !! k) → k ≤ map_fold (fun k _ acc => Z.max k acc) 0 m) as H.
  { intros Hk%H. lia. }
  clear k. apply (map_fold_weak_ind (fun r m => ∀ k, is_Some (m !! k) → k ≤ r)).
  - intros k [x Hx]. by rewrite lookup_empty in Hx.
  - intros i x m' r _ IH k. destruct (decide (i = k)) as [->|Hne].
    + lia.
    + rewrite lookup_insert_ne by done. intros Hk%IH. lia.
Qed.

Lemma next_id_fresh {A} (m : gmap Z A) : m !! next_id m = None.
Proof.
  destruct (m !! next_id m) eqn:E; [|done].
  assert (next_id m < next_id m) by (apply next_id_above; eauto). lia.
Qed.

(** What the [reduce] of [create] computes from the tasks of the section. *)
Lemma maxPosition_spec (l : list (Z * task.t)) (seed : Z) :
  let m := foldl (fun max task => Z.max max (task.position task.2)) seed l in
  seed ≤ m
  ∧ (∀ t, t ∈ l → task.position t.2 ≤ m)
  ∧ (m = seed ∨ ∃ t, t ∈ l ∧ m = task.position t.2).
Proof.
  revert seed. induction l as [|t l IH]; intros seed; cbn.
  - split_and!; [lia| |by left]. by intros t ?%elem_of_nil.
  - destruct (IH (Z.max seed (task.position t.2))) as (H1 & H2 & H3).
    split_and!.
    + lia.
    + intros t' [->|Ht']%elem_of_cons; [lia|by apply H2].
    + destruct H3 as [H3|(t' & Ht' & H3)].
      * destruct (Z.max_spec seed (task.position t.2)) as [[_ E]|[_ E]].
        -- right. exists t. split; [left|congruence].
        -- left. congruence.
      * right. exists t'. split; [by right|done].
Qed.

Section service_properties.

Variable JSON_parse : string → option jsval.
Variable errorMessage : error_messages.t.
Variable authorization : authorization_check.t.

(** A successful [create] passed every check and committed the insertion,
    with the labels when a list was given. *)
Lemma create_success (db db' : DB) (projectId sectionId userId : Z)
    (labelIdList : jsval) (dueDate : option string) (rest : Rest) (b : bool) :
  run (create JSON_parse errorMessage authorization projectId sectionId userId
              labelIdList dueDate rest) db
  = (db', inr b) →
  let maxPosition :=
    foldl (fun max task => Z.max max (task.position task.2)) 0
          (tasks_of_section db sectionId) in
  let row := new_row projectId sectionId dueDate (maxPosition + 1) rest in
  let id := next_id (tasks db) in
  b = true
  ∧ is_Some (projects db !! projectId)
  ∧ authorization_check.isProjectOwner authorization db projectId userId = true
  ∧ authorization_check.isSectionOwner authorization db sectionId userId = true
  ∧ (∃ sec, sections db !! sectionId = Some sec ∧ section.projectId sec = projectId)
  ∧ tasks db' = <[id := row]> (tasks db)
  ∧ (truthy labelIdList = true → is_Some (JSON_parse (ToString labelIdList))).
Proof.
  unfold create. async.
  destruct (projects db !! projectId) as [p|] eqn:Hp; cbn; [|by intros [=]].
  destruct (authorization_check.isProjectOwner authorization db projectId userId)
    eqn:Hown; cbn; [|by intros [=]].
  destruct (sections db !! sectionId) as [sec|] eqn:Hsec; cbn; [|by intros [=]].
  destruct (authorization_check.isSectionOwner authorization db sectionId userId)
    eqn:Hsown; cbn.
  2:{ by destruct (error_messages.FORBIDDEN_ERROR errorMessage); intros [=]. }
  case_bool_decide as Hrel; cbn; [|by intros [=]].
  fold (tasks_of_section db sectionId).
  destruct (references_ok db _) eqn:Hrefs; cbn; [|by intros [=]].
  destruct (truthy labelIdList) eqn:Htruthy; cbn.
  - destruct (JSON_parse (ToString labelIdList)) as [v|] eqn:Hparse; cbn;
      [|by intros [=]].
    destruct (toInstanceArray v) as [ids|]; cbn; [|by intros [=]].
    destruct (forallb _ ids); cbn; [|by intros [=]].
    intros [= <- <-]. cbn. split_and!; eauto.
  - intros [= <- <-]. cbn. split_and!; eauto. done.
Qed.

(** A successful [update] found the task, passed the ownership check and, when
    a label list was given, parsed it. *)
Lemma update_success (db db' : DB) (id : Z) (labelIdList : jsval)
    (dueDate : option string) (userId : Z) (projectId sectionId : option Z)
    (rest : Rest) (b : bool) :
  run (update JSON_parse errorMessage authorization id labelIdList dueDate userId
              projectId sectionId rest) db
  = (db', inr b) →
  b = true
  ∧ is_Some (tasks db !! id)
  ∧ authorization_check.isTaskOwner authorization db id userId = true
  ∧ (truthy labelIdList = true → is_Some (JSON_parse (ToString labelIdList))).
Proof.
  unfold update. async.
  destruct (tasks db !! id) as [row|] eqn:Hrow; cbn; [|by intros [=]].
  destruct (authorization_check.isTaskOwner authorization db id userId)
    eqn:Hown; cbn; [|by intros [=]].
  rewrite Hrow.
  destruct (references_ok db _) eqn:Hrefs; cbn; [|by intros [=]].
  destruct (truthy labelIdList) eqn:Htruthy; cbn.
  - destruct (JSON_parse (ToString labelIdList)) as [v|] eqn:Hparse; cbn;
      [|by intros [=]].
    destruct (toInstanceArray v) as [ids|]; cbn; [|by intros [=]].
    destruct (forallb _ ids); cbn; [|by intros [=]].
    intros [= <- <-]. split_and!; eauto.
  - intros [= <- <-]. split_and!; eauto. done.
Qed.

(** X4: a failing [create] writes nothing, whatever made it fail: all its
    writes carry the transaction. *)
Lemma create_failure_writes_nothing (db db' : DB) (projectId sectionId userId : Z)
    (labelIdList : jsval) (dueDate : option string) (rest : Rest) (e : JSError) :
  run (create JSON_parse errorMessage authorization projectId sectionId userId
              labelIdList dueDate rest) db
  = (db', inl e) →
  db' = db.
Proof.
  unfold create. async.
  destruct (projects db !! projectId) as [p|]; cbn; [|by intros [=]].
  destruct (authorization_check.isProjectOwner authorization db projectId userId);
    cbn; [|by intros [=]].
  destruct (sections db !! sectionId) as [sec|]; cbn; [|by intros [=]].
  destruct (authorization_check.isSectionOwner authorization db sectionId userId); cbn.
  2:{ by destruct (error_messages.FORBIDDEN_ERROR errorMessage); intros [=]. }
  case_bool_decide; cbn; [|by intros [=]].
  destruct (references_ok db _); cbn; [|by intros [=]].
  destruct (truthy labelIdList); cbn; [|by intros [=]].
  destruct (JSON_parse (ToString labelIdList)) as [v|]; cbn; [|by intros [=]].
  destruct (toInstanceArray v) as [ids|]; cbn; [|by intros [=]].
  destruct (forallb _ ids); cbn; by intros [=].
Qed.

(** X18: a failing [update] either wrote nothing, or was given a label list,
    failed in the label step and left the fields of [task.update] behind; it
    never leaves labels behind. *)
Lemma update_failure (db db' : DB) (id : Z) (labelIdList : jsval)
    (dueDate : option string) (userId : Z) (projectId sectionId : option Z)
    (rest : Rest) (e : JSError) :
  run (update JSON_parse errorMessage authorization id labelIdList dueDate userId
              projectId sectionId rest) db
  = (db', inl e) →
  db' = db
  ∨ (truthy labelIdList = true
     ∧ db' = apply_write (UpdateTask id {| v_dueDate := dueDate;
                                           v_projectId := projectId;
                                           v_sectionId := sectionId;
                                           v_rest := rest |}) db).
Proof.
  unfold update. async.
  destruct (tasks db !! id) as [row|] eqn:Hrow; cbn; [|intros [=]; by left].
  destruct (authorization_check.isTaskOwner authorization db id userId); cbn;
    [|intros [=]; by left].
  rewrite Hrow.
  destruct (references_ok db _); cbn; [|intros [=]; by left].
  destruct (truthy labelIdList); cbn; [|by intros [=]].
  destruct (JSON_parse (ToString labelIdList)) as [v|]; cbn; [|intros [=]; by right].
  destruct (toInstanceArray v) as [ids|]; cbn; [|intros [=]; by right].
  destruct (forallb _ ids); cbn; [by intros [=]|intros [=]; by right].
Qed.

(** Every call settles: it resolves or it throws. *)
Lemma settles {A} (call : Async A) (db : DB) :
  (∃ e, (run call db).2 = inl e) ∨ (∃ a, (run call db).2 = inr a).
Proof.
  unfold run. destruct (call _) as [s [e|a]]; cbn; eauto.
Qed.

(** In [update] the fields are written outside the transaction: when the
    label list does not parse, the rollback leaves them in the table. *)
Lemma update_unparseable_labels (db : DB) (id : Z) (row : task.t)
    (labelIdList : jsval) (dueDate : option string) (userId : Z)
    (projectId sectionId : option Z) (rest : Rest) :
  let vals := {| v_dueDate := dueDate; v_projectId := projectId;
                 v_sectionId := sectionId; v_rest := rest |} in
  tasks db !! id = Some row →
  authorization_check.isTaskOwner authorization db id userId = true →
  references_ok db (set_values vals row) = true →
  truthy labelIdList = true →
  JSON_parse (ToString labelIdList) = None →
  run (update JSON_parse errorMessage authorization id labelIdList dueDate userId
              projectId sectionId rest) db
  = (apply_write (UpdateTask id vals) db, inl syntax_error).
Proof.
  intros vals Hrow Hown Hrefs Htruthy Hparse. unfold update. async.
  rewrite Hrow. cbn. rewrite Hown. cbn. rewrite Hrow. fold vals.
  rewrite Hrefs. cbn. rewrite Htruthy, Hparse. done.
Qed.

(** C2, as amended: when the project exists and the caller owns it, and the
    section exists, is owned by the caller and belongs to another project than
    the one supplied, [create] throws the wrong-relation error with the Bad
    Request status, 400, and writes nothing. *)
Theorem create_wrong_relation (db : DB) (projectId sectionId userId : Z)
    (labelIdList : jsval) (dueDate : option string) (rest : Rest)
    (sec : section.t) :
  is_Some (projects db !! projectId) →
  authorization_check.isProjectOwner authorization db projectId userId = true →
  sections db !! sectionId = Some sec →
  authorization_check.isSectionOwner authorization db sectionId userId = true →
  section.projectId sec ≠ projectId →
  run (create JSON_parse errorMessage authorization projectId sectionId userId
              labelIdList dueDate rest) db
  = (db, inl {| class := Error;
                message := error_messages.WRONG_RELATION_ERROR errorMessage
                             "project, section";
                status := Some 400 |}).
Proof.
  intros [p Hp] Hown Hsec Hsown Hrel. unfold create. async.
  rewrite Hp. cbn. rewrite Hown. cbn. rewrite Hsec. cbn. rewrite Hsown. cbn.
  by rewrite bool_decide_eq_false_2.
Qed.

(** C9, as amended: when the project exists and the caller owns it, and the
    section exists but the caller does not own it, [create] throws an error
    whose status is the NotFound code, 404, and not the Forbidden code, while
    its message is what [errorMessage.FORBIDDEN_ERROR('section')] returns; the
    export has to be a function for the call to return. *)
Theorem create_unowned_section (db : DB) (projectId sectionId userId : Z)
    (labelIdList : jsval) (dueDate : option string) (rest : Rest)
    (source : string) (f : string → string) :
  is_Some (projects db !! projectId) →
  authorization_check.isProjectOwner authorization db projectId userId = true →
  is_Some (sections db !! sectionId) →
  authorization_check.isSectionOwner authorization db sectionId userId = false →
  error_messages.FORBIDDEN_ERROR errorMessage = error_messages.Function source f →
  run (create JSON_parse errorMessage authorization projectId sectionId userId
              labelIdList dueDate rest) db
  = (db, inl {| class := Error; message := f "section"; status := Some 404 |})
  ∧ errorCode.NOT_FOUND_ERROR = 404
  ∧ errorCode.FORBIDDEN_ERROR ≠ 404.
Proof.
  intros [p Hp] Hown [sec Hsec] Hsown Hfun. split; [|done].
  unfold create. async.
  rewrite Hp. cbn. rewrite Hown. cbn. rewrite Hsec. cbn. rewrite Hsown. cbn.
  by rewrite Hfun.
Qed.

(** X19: where the export is a plain string, as the three other uses take it,
    the same call throws a [TypeError] that carries no status, and nothing is
    written. *)
Lemma create_unowned_section_text (db : DB) (projectId sectionId userId : Z)
    (labelIdList : jsval) (dueDate : option string) (rest : Rest) (text : string) :
  is_Some (projects db !! projectId) →
  authorization_check.isProjectOwner authorization db projectId userId = true →
  is_Some (sections db !! sectionId) →
  authorization_check.isSectionOwner authorization db sectionId userId = false →
  error_messages.FORBIDDEN_ERROR errorMessage = error_messages.Text text →
  run (create JSON_parse errorMessage authorization projectId sectionId userId
              labelIdList dueDate rest) db
  = (db, inl (not_a_function "errorMessage.FORBIDDEN_ERROR")).
Proof.
  intros [p Hp] Hown [sec Hsec] Hsown Htext. unfold create. async.
  rewrite Hp. cbn. rewrite Hown. cbn. rewrite Hsec. cbn. rewrite Hsown. cbn.
  by rewrite Htext.
Qed.

(** C3, as amended: after a successful [create] whose data carry no
    [position] of their own, the new row sits under a key that was free, the
    other rows are as before, and its position is 1 + max(0, m), where m is
    the largest position among the tasks the section had: 1 + m when m is not
    negative, and 1 when the section had no task. *)
Theorem create_position (db db' : DB) (projectId sectionId userId : Z)
    (labelIdList : jsval) (dueDate : option string) (rest : Rest) (b : bool) :
  run (create JSON_parse errorMessage authorization projectId sectionId userId
              labelIdList dueDate rest) db
  = (db', inr b) →
  r_position rest = None →
  ∃ id row,
    tasks db !! id = None
    ∧ tasks db' = <[id := row]> (tasks db)
    ∧ ((∀ k r, tasks db !! k = Some r → task.sectionId r ≠ sectionId) →
       task.position row = 1)
    ∧ (∀ m, (∃ k r, tasks db !! k = Some r ∧ task.sectionId r = sectionId
                    ∧ task.position r = m) →
            (∀ k r, tasks db !! k = Some r → task.sectionId r = sectionId →
                    task.position r ≤ m) →
            task.position row = 1 + Z.max 0 m).
Proof.
  intros Hrun Hpos.
  destruct (create_success _ _ _ _ _ _ _ _ _ Hrun) as (_ & _ & _ & _ & _ & Hrow & _).
  eexists _, _. split; [apply next_id_fresh|]. split; [exact Hrow|].
  cbn. rewrite Hpos. cbn.
  pose proof (maxPosition_spec (tasks_of_section db sectionId) 0) as (Hge & Hub & Hwit).
  assert (∀ t, t ∈ tasks_of_section db sectionId ↔
               tasks db !! t.1 = Some t.2 ∧ task.sectionId t.2 = sectionId) as Hin.
  { intros [k r]. unfold tasks_of_section.
    rewrite list_elem_of_filter, elem_of_map_to_list. cbn. tauto. }
  split.
  - intros Hnone. destruct Hwit as [->|(t & [Ht Hs]%Hin & _)]; [done|].
    by destruct (Hnone _ _ Ht).
  - intros m (k & r & Hr & Hs & Hm) Hmax.
    assert (task.position r ≤ _) as Hle by (apply (Hub (k, r)), Hin; done).
    cbn in Hle. destruct Hwit as [E|(t & [Ht Hts]%Hin & E)].
    + lia.
    + specialize (Hmax _ _ Ht Hts). lia.
Qed.

(** C10, as amended: with a truthy [labelIdList], [create] and [update]
    resolve only if the string [JSON.parse] makes of the value parses; when it
    does not parse, both fail and return no boolean. *)
Theorem labels_must_parse (db : DB) (projectId sectionId userId id : Z)
    (labelIdList : jsval) (dueDate : option string)
    (newProjectId newSectionId : option Z) (rest : Rest) :
  truthy labelIdList = true →
  let created :=
    run (create JSON_parse errorMessage authorization projectId sectionId userId labelIdList
                dueDate rest) db in
  let updated :=
    run (update JSON_parse errorMessage authorization id labelIdList dueDate userId
                newProjectId newSectionId rest) db in
  ((∃ b, created.2 = inr b) → is_Some (JSON_parse (ToString labelIdList)))
  ∧ ((∃ b, updated.2 = inr b) → is_Some (JSON_parse (ToString labelIdList)))
  ∧ (JSON_parse (ToString labelIdList) = None →
     (∃ e, created.2 = inl e) ∧ (∃ e, updated.2 = inl e)).
Proof.
  intros Htruthy created updated.
  assert ((∃ b, created.2 = inr b) → is_Some (JSON_parse (ToString labelIdList))) as Hc.
  { intros [b Hb].
    destruct (create_success db created.1 projectId sectionId userId labelIdList
                             dueDate rest b) as (_ & _ & _ & _ & _ & _ & H).
    - rewrite <- Hb. apply surjective_pairing.
    - by apply H. }
  assert ((∃ b, updated.2 = inr b) → is_Some (JSON_parse (ToString labelIdList))) as Hu.
  { intros [b Hb].
    destruct (update_success db updated.1 id labelIdList dueDate userId
                             newProjectId newSectionId rest b) as (_ & _ & _ & H).
    - rewrite <- Hb. apply surjective_pairing.
    - by apply H. }
  split_and!; [done|done|]. intros Hnone. rewrite Hnone in Hc, Hu. split.
  - destruct (settles (create JSON_parse errorMessage authorization projectId sectionId userId
                              labelIdList dueDate rest) db) as [?|Hok]; [done|].
    by destruct (Hc Hok).
  - destruct (settles (update JSON_parse errorMessage authorization id labelIdList dueDate userId
                              newProjectId newSectionId rest) db) as [?|Hok]; [done|].
    by destruct (Hu Hok).
Qed.

End service_properties.

(** C4: when the task exists and the project it belongs to was created by
    somebody else than the requesting user, [retrieveById] and [update] both
    throw the error that carries the Forbidden status, 403, and nothing is
    written. *)
Theorem not_owner_is_forbidden (JSON_parse : string → option jsval)
    (errorMessage : error_messages.t) (db : DB) (id userId : Z) (row : task.t)
    (p : project.t) (labelIdList : jsval) (dueDate : option string)
    (projectId sectionId : option Z) (rest : Rest) :
  tasks db !! id = Some row →
  projects db !! task.projectId row = Some p →
  project.creatorId p ≠ userId →
  status (forbidden errorMessage) = Some 403
  ∧ run (retrieveById errorMessage ownership id userId) db
    = (db, inl (forbidden errorMessage))
  ∧ run (update JSON_parse errorMessage ownership id labelIdList dueDate userId
                projectId sectionId rest) db
    = (db, inl (forbidden errorMessage)).
Proof.
  intros Hrow Hp Hne.
  assert (creator_is db (task.projectId row) userId = false) as Hown.
  { unfold creator_is. rewrite Hp. by apply bool_decide_eq_false. }
  split_and!; [done| |].
  - unfold retrieveById, findByPk_included. async. rewrite Hrow.
    destruct (load_one db (id, row)) as (v & -> & _). cbn.
    by rewrite Hrow, Hown.
  - unfold update. async. rewrite Hrow. cbn. by rewrite Hrow, Hown.
Qed.

(** C5: [remove] deletes the row with the given key whoever asks and whether
    or not it exists, raises no error, and resolves with the number of rows
    deleted: 1 when the key was there, 0 when it was not. *)
Theorem remove_deletes_by_id (db : DB) (id : Z) :
  let out := run (remove id) db in
  (is_Some (tasks db !! id) → out.2 = inr 1)
  ∧ (tasks db !! id = None → out.2 = inr 0)
  ∧ tasks out.1 !! id = None
  ∧ dom (tasks out.1) = dom (tasks db) ∖ {[ id ]}.
Proof.
  unfold remove. async.
  split_and!.
  - by intros [row ->].
  - by intros ->.
  - by rewrite lookup_fmap, lookup_delete_eq.
  - by rewrite dom_fmap_L, dom_delete_L.
Qed.

Lemma selected_spec (db : DB) (userId : Z) (kr : Z * task.t) :
  selected db userId kr ↔
  task.isDone kr.2 = false
  ∧ ∃ p, projects db !! task.projectId kr.2 = Some p ∧ project.creatorId p = userId.
Proof.
  unfold selected, creator_is.
  rewrite andb_True, negb_True, Is_true_false.
  destruct (projects db !! task.projectId kr.2) as [p|].
  - rewrite bool_decide_spec. split.
    + intros [Hdone Hp]. split; [exact Hdone|]. by exists p.
    + intros [Hdone (q & [= <-] & Hq)]. by split.
  - split.
    + by intros [_ []].
    + by intros [_ (q & [=] & _)].
Qed.

(** C6, as amended: [retrieveAll] resolves, writes nothing, and returns
    exactly the tasks that are not done and whose project was created by the
    user, each once and with exactly its sub-tasks; under each returned task
    the sub-tasks are in ascending position.  The order clause names the
    included model, so nothing is said of the order of the returned tasks
    themselves. *)
Theorem retrieveAll_selects_and_orders_subtasks (db : DB) (userId : Z) :
  ∃ loaded,
    run (retrieveAll userId) db = (db, inr loaded)
    ∧ NoDup (pk ∘ self <$> loaded)
    ∧ (∀ k r, (∃ v, v ∈ loaded ∧ pk (self v) = k ∧ row (self v) = r) ↔
              tasks db !! k = Some r
              ∧ task.isDone r = false
              ∧ ∃ p, projects db !! task.projectId r = Some p
                     ∧ project.creatorId p = userId)
    ∧ (∀ v, v ∈ loaded →
            NoDup (pk <$> its_tasks v)
            ∧ (∀ k r, (∃ i, i ∈ its_tasks v ∧ pk i = k ∧ row i = r) ↔
                      tasks db !! k = Some r
                      ∧ task.parentId r = Some (pk (self v)))
            ∧ Sorted Z.le (task.position ∘ row <$> its_tasks v)).
Proof.
  unfold retrieveAll. async.
  set (parents := filter (fun kr => selected db userId kr) (map_to_list (tasks db))).
  assert (NoDup (fst <$> parents)) as Hnd.
  { apply (sublist_NoDup _ (fst <$> map_to_list (tasks db))).
    - apply NoDup_fst_map_to_list.
    - apply fmap_sublist, sublist_filter. }
  assert (∀ k r, (k, r) ∈ parents ↔
                 tasks db !! k = Some r ∧ task.isDone r = false
                 ∧ ∃ p, projects db !! task.projectId r = Some p
                        ∧ project.creatorId p = userId) as Hparents.
  { intros k r. unfold parents.
    rewrite list_elem_of_filter, elem_of_map_to_list, selected_spec. cbn. tauto. }
  destruct (load_selves db parents Hnd) as [Hkeys Hload].
  eexists. split; [reflexivity|]. split; [exact Hkeys|]. split.
  - intros k r. rewrite <- Hparents. split.
    + intros (v & (p & Hp & ->)%Hload & <- & <-). by destruct p.
    + intros Hp. eexists. split; [apply Hload; eauto|done].
  - intros v (p & Hp & ->)%Hload. cbn [its_tasks self pk instance_of].
    pose proof (load_subtasks db parents p Hnd Hp) as Hperm.
    set (subs := subtasks_in _ p.1) in *.
    split_and!.
    + rewrite <- list_fmap_compose.
      change (NoDup (fst <$> subs)). rewrite Hperm. apply children_NoDup.
    + intros k r. rewrite <- (elem_of_children db p.1 (k, r)), <- Hperm. split.
      * intros (i & (c & -> & Hc)%list_elem_of_fmap & <- & <-). by destruct c.
      * intros Hc. exists (instance_of db (k, r)). split; [|done].
        by apply list_elem_of_fmap_2.
    + rewrite <- list_fmap_compose. apply StronglySorted_Sorted.
      apply (StronglySorted_fmap _ by_position); [by intros x y|].
      apply subtasks_in_sorted, StronglySorted_merge_sort; apply _.
Qed.

(** * The service on the sample database *)

(** C1 asks that a failing [update] leave the task row and its labels as they
    were.  The code breaks it: [task.update] is called without the
    transaction, so its write is committed at once, and when the label list
    then fails to parse the rollback has nothing of it to undo.  Here the task
    1 of user 10 has no due date; the call throws the [SyntaxError] of
    [JSON.parse], and the due date it carried stays in the row. *)
Theorem update_rollback_keeps_fields :
  let out := run (update json.parse sample_messages ownership 1 (JSstring "[")
                         (Some "2020-12-01") 10 None None sample.no_rest)
                 sample.db in
  out.2 = inl syntax_error
  ∧ task.dueDate <$> tasks sample.db !! 1 = Some None
  ∧ task.dueDate <$> tasks out.1 !! 1 = Some (Some "2020-12-01")
  ∧ out.1 ≠ sample.db.
Proof.
  cbv zeta.
  rewrite (update_unparseable_labels json.parse sample_messages ownership sample.db 1
             (sample.a_task 2 false 1 1 None)) by (vm_compute; reflexivity).
  split_and!; [reflexivity|reflexivity|vm_compute; reflexivity|].
  intros E. apply (f_equal (fun d => task.dueDate <$> tasks d !! 1)) in E.
  vm_compute in E. discriminate E.
Qed.

Lemma not_owner_is_forbidden_witness :
  run (retrieveById sample_messages ownership 1 20) sample.db
  = (sample.db, inl (forbidden sample_messages)).
Proof.
  apply (not_owner_is_forbidden json.parse sample_messages sample.db 1 20
           (sample.a_task 2 false 1 1 None) {| project.creatorId := 10 |}
           JSundefined None None None sample.no_rest);
    [reflexivity|reflexivity|cbn; lia].
Defined.

Lemma remove_deletes_by_id_witness :
  (run (remove 1) sample.db).2 = inr 1
  ∧ (run (remove 9) sample.db).2 = inr 0.
Proof.
  split.
  - apply (remove_deletes_by_id sample.db 1). vm_compute. eauto.
  - apply (remove_deletes_by_id sample.db 9). reflexivity.
Defined.

(** C2 as stated fails: user 10 owns project 1 but not section 2, which
    belongs to project 2; the ownership check on the section comes first, and
    the error carries 404, not 400. *)
Lemma create_wrong_relation_unowned_section :
  ∃ sec e,
    sections sample.db !! 2 = Some sec
    ∧ section.projectId sec ≠ 1
    ∧ (run (create json.parse sample_messages ownership 1 2 10 JSundefined None
                   sample.no_rest) sample.db).2 = inl e
    ∧ status e = Some 404
    ∧ status e ≠ Some errorCode.BAD_REQUEST_ERROR.
Proof.
  eexists _, _. split_and!; [reflexivity| |vm_compute; reflexivity| |]; cbn.
  - lia.
  - reflexivity.
  - discriminate.
Qed.

Lemma create_wrong_relation_witness :
  run (create json.parse sample_messages ownership 1 3 10 JSundefined None sample.no_rest)
      sample.db
  = (sample.db, inl {| class := Error; message := "project, section wrong relation";
                       status := Some 400 |}).
Proof.
  apply (create_wrong_relation json.parse sample_messages ownership sample.db 1 3 10
           JSundefined None sample.no_rest {| section.projectId := 3 |}).
  - vm_compute. eauto.
  - reflexivity.
  - reflexivity.
  - reflexivity.
  - cbn. lia.
Defined.

(** C9 as stated fails: section 2 exists and user 10 does not own it, but
    neither does user 10 own project 2; the check on the project comes first
    and the error carries the Forbidden code. *)
Lemma create_unowned_section_unowned_project :
  ∃ e,
    is_Some (sections sample.db !! 2)
    ∧ authorization_check.isSectionOwner ownership sample.db 2 10 = false
    ∧ (run (create json.parse sample_messages ownership 2 2 10 JSundefined None
                   sample.no_rest) sample.db).2 = inl e
    ∧ status e = Some errorCode.FORBIDDEN_ERROR
    ∧ status e ≠ Some errorCode.NOT_FOUND_ERROR.
Proof.
  eexists. split_and!; [vm_compute; eauto|reflexivity|vm_compute; reflexivity| |];
    cbn.
  - reflexivity.
  - discriminate.
Qed.

Lemma create_unowned_section_witness :
  run (create json.parse sample_messages ownership 1 2 10 JSundefined None sample.no_rest)
      sample.db
  = (sample.db, inl {| class := Error; message := "section forbidden";
                       status := Some 404 |}).
Proof.
  apply (create_unowned_section json.parse sample_messages ownership sample.db 1 2 10
           JSundefined None sample.no_rest
           "what => `${what} forbidden`" (fun what => what ++ " forbidden")%string).
  - vm_compute. eauto.
  - reflexivity.
  - vm_compute. eauto.
  - reflexivity.
  - reflexivity.
Defined.

(** C3 as stated fails twice.  Section 3 holds one task, at position -3: the
    task created there gets position 1, not 1 + (-3).  And a [position] left
    in the data of the call replaces the computed one: in section 1, whose
    largest position is 2, the new task gets the 99 it was sent. *)
Lemma create_position_not_one_past_maximum :
  let seeded := run (create json.parse sample_messages ownership 3 3 10 JSundefined None
                            sample.no_rest) sample.db in
  let sent := run (create json.parse sample_messages ownership 1 1 10 JSundefined None
                          {| r_title := None; r_isDone := None;
                             r_position := Some 99; r_parentId := None |})
                  sample.db in
  (task.position ∘ snd <$> tasks_of_section sample.db 3 = [-3]
   ∧ seeded.2 = inr true
   ∧ tasks sample.db !! 8 = None
   ∧ task.position <$> tasks seeded.1 !! 8 = Some 1)
  ∧ (forallb (fun p => p <=? 2)
             (task.position ∘ snd <$> tasks_of_section sample.db 1) = true
     ∧ existsb (Z.eqb 2)
               (task.position ∘ snd <$> tasks_of_section sample.db 1) = true
     ∧ sent.2 = inr true
     ∧ task.position <$> tasks sent.1 !! 8 = Some 99).
Proof. vm_compute. by split_and!. Qed.

Lemma create_position_witness :
  ∃ id row,
    tasks sample.db !! id = None
    ∧ task.position row = 1 + Z.max 0 2.
Proof.
  destruct (create_position json.parse sample_messages ownership sample.db
              (run (create json.parse sample_messages ownership 1 1 10 (JSstring "[5, 6]")
                           None sample.no_rest) sample.db).1
              1 1 10 (JSstring "[5, 6]") None sample.no_rest true)
    as (id & row & Hfree & _ & _ & Hmax).
  - vm_compute. reflexivity.
  - reflexivity.
  - exists id, row. split; [exact Hfree|]. apply Hmax.
    + exists 1, (sample.a_task 2 false 1 1 None). by split_and!.
    + intros k r Hr Hs.
      assert ((k, r) ∈ tasks_of_section sample.db 1) as Hin.
      { unfold tasks_of_section. apply list_elem_of_filter.
        split; [done|]. by apply elem_of_map_to_list. }
      vm_compute in Hin.
      repeat (apply elem_of_cons in Hin as [[= -> ->]|Hin]; [cbn; lia|]).
      by apply elem_of_nil in Hin.
Defined.

(** C6 as stated fails: for user 10 the task at position 2, whose sub-task is
    at position 1, is returned before the task at position 1, whose sub-task
    is at position 2. *)
Lemma retrieveAll_not_by_own_position :
  ∃ loaded,
    (run (retrieveAll 10) sample.db).2 = inr loaded
    ∧ pk ∘ self <$> loaded = [1; 2]
    ∧ task.position ∘ row ∘ self <$> loaded = [2; 1]
    ∧ (fun v => task.position ∘ row <$> its_tasks v) <$> loaded = [[1]; [2]]
    ∧ ¬ Sorted Z.le (task.position ∘ row ∘ self <$> loaded).
Proof.
  eexists. split; [vm_compute; reflexivity|].
  split_and!; [reflexivity|reflexivity|reflexivity|].
  cbn. intros H. apply Sorted_inv in H as [_ H]. apply HdRel_inv in H. lia.
Qed.

Lemma retrieveAll_selects_and_orders_subtasks_witness :
  ∃ v, pk (self v) = 1
       ∧ row (self v) = sample.a_task 2 false 1 1 None
       ∧ (∃ i, i ∈ its_tasks v ∧ pk i = 3 ∧ row i = sample.a_task 1 true 1 1 (Some 1))
       ∧ Sorted Z.le (task.position ∘ row <$> its_tasks v).
Proof.
  destruct (retrieveAll_selects_and_orders_subtasks sample.db 10)
    as (loaded & _ & _ & Hsel & Hsub).
  destruct (proj2 (Hsel 1 (sample.a_task 2 false 1 1 None))) as (v & Hv & Hk & Hr).
  { split; [reflexivity|]. split; [reflexivity|].
    exists {| project.creatorId := 10 |}. split; reflexivity. }
  destruct (Hsub v Hv) as (_ & Hchildren & Hsorted).
  exists v. split_and!; [exact Hk|exact Hr| |exact Hsorted].
  apply Hchildren. rewrite Hk. split; reflexivity.
Defined.

(** C10 as stated fails: a label list sent as the array [[5]] is truthy and
    is not a string, yet [JSON.parse] reads the string 5 it converts to, and
    both calls resolve.  So do they for the one-element array holding the
    string of an empty array, whatever the labels are. *)
Lemma label_list_need_not_be_a_string :
  truthy (JSarray [JSnumber 5]) = true
  ∧ (∀ s, JSarray [JSnumber 5] ≠ JSstring s)
  ∧ ToString (JSarray [JSnumber 5]) = "5"
  ∧ (run (create json.parse sample_messages ownership 1 1 10 (JSarray [JSnumber 5])
                 None sample.no_rest) sample.db).2 = inr true
  ∧ (run (update json.parse sample_messages ownership 1 (JSarray [JSnumber 5])
                 None 10 None None sample.no_rest) sample.db).2 = inr true
  ∧ truthy (JSarray [JSstring "[]"]) = true
  ∧ (run (create json.parse sample_messages ownership 1 1 10
                 (JSarray [JSstring "[]"]) None sample.no_rest) sample.db).2
    = inr true.
Proof.
  split_and!; [reflexivity|discriminate| | | |reflexivity|]; vm_compute; reflexivity.
Qed.

Lemma labels_must_parse_witness :
  (∃ e, (run (create json.parse sample_messages ownership 1 1 10 (JSstring "[5,") None
                     sample.no_rest) sample.db).2 = inl e)
  ∧ (∃ e, (run (update json.parse sample_messages ownership 1 (JSstring "[5,") None 10
                       None None sample.no_rest) sample.db).2 = inl e).
Proof.
  apply (labels_must_parse json.parse sample_messages ownership sample.db 1 1 10 1
           (JSstring "[5,") None None None sample.no_rest).
  - reflexivity.
  - vm_compute. reflexivity.
Defined.

(** * Further properties of the task service *)

Section service_outcomes.

Variable JSON_parse : string → option jsval.
Variable errorMessage : error_messages.t.
Variable authorization : authorization_check.t.

(** What a successful [create] committed. *)
Lemma create_outcome (db db' : DB) (projectId sectionId userId : Z)
    (labelIdList : jsval) (dueDate : option string) (rest : Rest) (b : bool) :
  run (create JSON_parse errorMessage authorization projectId sectionId userId
              labelIdList dueDate rest) db
  = (db', inr b) →
  let maxPosition :=
    foldl (fun max task => Z.max max (task.position task.2)) 0
          (tasks_of_section db sectionId) in
  let row := new_row projectId sectionId dueDate (maxPosition + 1) rest in
  let id := next_id (tasks db) in
  (truthy labelIdList = false ∧ db' = apply_write (InsertTask id row) db)
  ∨ (truthy labelIdList = true
     ∧ ∃ v ids,
         JSON_parse (ToString labelIdList) = Some v
         ∧ toInstanceArray v = Some ids
         ∧ forallb (fun l => bool_decide (l ∈ labels db)) ids = true
         ∧ db' = apply_write (SetLabels id ids) (apply_write (InsertTask id row) db)).
Proof.
  unfold create. async.
  destruct (projects db !! projectId) as [p|]; cbn; [|by intros [=]].
  destruct (authorization_check.isProjectOwner authorization db projectId userId);
    cbn; [|by intros [=]].
  destruct (sections db !! sectionId) as [sec|]; cbn; [|by intros [=]].
  destruct (authorization_check.isSectionOwner authorization db sectionId userId);
    cbn.
  2:{ by destruct (error_messages.FORBIDDEN_ERROR errorMessage); intros [=]. }
  case_bool_decide; cbn; [|by intros [=]].
  fold (tasks_of_section db sectionId).
  destruct (references_ok db _); cbn; [|by intros [=]].
  destruct (truthy labelIdList); cbn.
  - destruct (JSON_parse (ToString labelIdList)) as [v|]; cbn; [|by intros [=]].
    destruct (toInstanceArray v) as [ids|] eqn:Hids; cbn; [|by intros [=]].
    destruct (forallb _ ids) eqn:Hall; cbn; [|by intros [=]].
    intros [= <- <-]. right. split; [done|]. by exists v, ids.
  - intros [= <- <-]. by left.
Qed.

(** What [update] left in the database, however it ended. *)
Lemma update_outcome (db db' : DB) (id : Z) (labelIdList : jsval)
    (dueDate : option string) (userId : Z) (projectId sectionId : option Z)
    (rest : Rest) (r : JSError + bool) :
  run (update JSON_parse errorMessage authorization id labelIdList dueDate userId
              projectId sectionId rest) db
  = (db', r) →
  let vals := {| v_dueDate := dueDate; v_projectId := projectId;
                 v_sectionId := sectionId; v_rest := rest |} in
  db' = db
  ∨ db' = apply_write (UpdateTask id vals) db
  ∨ ∃ ids, r = inr true
           ∧ truthy labelIdList = true
           ∧ (∃ v, JSON_parse (ToString labelIdList) = Some v
                   ∧ toInstanceArray v = Some ids)
           ∧ db' = apply_write (SetLabels id ids) (apply_write (UpdateTask id vals) db).
Proof.
  unfold update. async.
  destruct (tasks db !! id) as [row|] eqn:Hrow; cbn; [|intros [= <- <-]; by left].
  destruct (authorization_check.isTaskOwner authorization db id userId); cbn;
    [|intros [= <- <-]; by left].
  rewrite Hrow.
  destruct (references_ok db _); cbn; [|intros [= <- <-]; by left].
  destruct (truthy labelIdList); cbn; [|intros [= <- <-]; right; by left].
  destruct (JSON_parse (ToString labelIdList)) as [v|]; cbn;
    [|intros [= <- <-]; right; by left].
  destruct (toInstanceArray v) as [ids|] eqn:Hids; cbn;
    [|intros [= <- <-]; right; by left].
  destruct (forallb _ ids); cbn; [|intros [= <- <-]; right; by left].
  intros [= <- <-]. right. right. exists ids. split_and!; [done|done| |done].
  by exists v.
Qed.

End service_outcomes.

Section service_extras.

Variable JSON_parse : string → option jsval.
Variable errorMessage : error_messages.t.
Variable authorization : authorization_check.t.

(** X1: [retrieveById] and [update] on a key that is not in the task table
    throw the not-found error for ['task'] with status 404, whoever asks: the
    ownership check is not consulted, and nothing is written. *)
Theorem missing_task_is_not_found (db : DB) (id userId : Z) (labelIdList : jsval)
    (dueDate : option string) (projectId sectionId : option Z) (rest : Rest) :
  tasks db !! id = None →
  let not_found :=
    {| class := Error; message := error_messages.NOT_FOUND_ERROR errorMessage "task";
       status := Some 404 |} in
  run (retrieveById errorMessage authorization id userId) db = (db, inl not_found)
  ∧ run (update JSON_parse errorMessage authorization id labelIdList dueDate userId
                projectId sectionId rest) db
    = (db, inl not_found).
Proof.
  intros Hnone. split.
  - unfold retrieveById, findByPk_included. async. by rewrite Hnone.
  - unfold update. async. by rewrite Hnone.
Qed.

(** X2: for the owner of an existing task, [retrieveById] resolves with that
    task and its labels, together with exactly its sub-tasks, each once and in
    ascending position, and writes nothing. *)
Theorem retrieveById_owner (db : DB) (id userId : Z) (r : task.t) :
  tasks db !! id = Some r →
  authorization_check.isTaskOwner authorization db id userId = true →
  ∃ v,
    run (retrieveById errorMessage authorization id userId) db = (db, inr v)
    ∧ self v = {| pk := id; row := r;
                  its_labels := elements (default ∅ (task_labels db !! id)) |}
    ∧ NoDup (pk <$> its_tasks v)
    ∧ (∀ k r', (∃ i, i ∈ its_tasks v ∧ pk i = k ∧ row i = r') ↔
               tasks db !! k = Some r' ∧ task.parentId r' = Some id)
    ∧ Sorted Z.le (task.position ∘ row <$> its_tasks v).
Proof.
  intros Hrow Hown.
  assert (NoDup (fst <$> [(id, r)])) as Hnd by (apply NoDup_singleton).
  destruct (load_one db (id, r)) as (v & Hload & Hself).
  destruct (load_selves db [(id, r)] Hnd) as [_ Hin].
  destruct (proj1 (Hin v)) as (p & ->%list_elem_of_singleton & Hv).
  { rewrite Hload. left. }
  pose proof (load_subtasks db [(id, r)] (id, r) Hnd ltac:(left)) as Hperm.
  cbn [fst] in Hperm.
  exists v. split.
  { unfold retrieveById, findByPk_included. async. rewrite Hrow, Hload. cbn.
    by rewrite Hown. }
  split; [by rewrite Hself|].
  rewrite Hv. cbn [its_tasks fst].
  set (subs := subtasks_in _ id) in *.
  split_and!.
  - rewrite <- list_fmap_compose.
    change (NoDup (fst <$> subs)). rewrite Hperm. apply children_NoDup.
  - intros k r'. rewrite <- (elem_of_children db id (k, r')), <- Hperm. split.
    + intros (i & (c & -> & Hc)%list_elem_of_fmap & <- & <-). by destruct c.
    + intros Hc. exists (instance_of db (k, r')). split; [|done].
      by apply list_elem_of_fmap_2.
  - rewrite <- list_fmap_compose. apply StronglySorted_Sorted.
    apply (StronglySorted_fmap _ by_position); [by intros x y|].
    apply subtasks_in_sorted, StronglySorted_merge_sort; apply _.
Qed.

(** X3: [create] reports the first guard that fails and writes nothing: 404
    for a project that does not exist, 403 for a project of somebody else, 404
    for a section that does not exist. *)
Theorem create_guards (db : DB) (projectId sectionId userId : Z)
    (labelIdList : jsval) (dueDate : option string) (rest : Rest) :
  let out := run (create JSON_parse errorMessage authorization projectId sectionId
                         userId labelIdList dueDate rest) db in
  (projects db !! projectId = None →
   out = (db, inl {| class := Error;
                     message := error_messages.NOT_FOUND_ERROR errorMessage "project";
                     status := Some 404 |}))
  ∧ (is_Some (projects db !! projectId) →
     authorization_check.isProjectOwner authorization db projectId userId = false →
     out = (db, inl {| class := Error;
                       message := error_messages.as_message
                                    (error_messages.FORBIDDEN_ERROR errorMessage);
                       status := Some 403 |}))
  ∧ (is_Some (projects db !! projectId) →
     authorization_check.isProjectOwner authorization db projectId userId = true →
     sections db !! sectionId = None →
     out = (db, inl {| class := Error;
                       message := error_messages.NOT_FOUND_ERROR errorMessage "section";
                       status := Some 404 |})).
Proof.
  unfold create. async. split_and!.
  - by intros ->.
  - intros [p ->] Hown. cbn. by rewrite Hown.
  - intros [p ->] Hown Hsec. cbn. rewrite Hown. cbn. by rewrite Hsec.
Qed.

(** The owner gets the instance of the row. *)
Lemma retrieveById_self (db : DB) (id userId : Z) (r : task.t) :
  tasks db !! id = Some r →
  authorization_check.isTaskOwner authorization db id userId = true →
  ∃ v, run (retrieveById errorMessage authorization id userId) db = (db, inr v)
       ∧ self v = instance_of db (id, r).
Proof.
  intros Hrow Hown. destruct (load_one db (id, r)) as (v & Hload & Hself).
  exists v. split; [|done].
  unfold retrieveById, findByPk_included. async. rewrite Hrow, Hload. cbn.
  by rewrite Hown.
Qed.


(** X6: with a falsy label list ([undefined], [null], the empty string, 0,
    [false]) neither [create] nor [update] calls [JSON.parse]: the outcome is
    the same whatever the parser would do. *)
Theorem no_labels_no_parsing (parse1 parse2 : string → option jsval) (db : DB)
    (projectId sectionId userId id : Z) (labelIdList : jsval)
    (dueDate : option string) (newProjectId newSectionId : option Z) (rest : Rest) :
  truthy labelIdList = false →
  run (create parse1 errorMessage authorization projectId sectionId userId
              labelIdList dueDate rest) db
  = run (create parse2 errorMessage authorization projectId sectionId userId
                labelIdList dueDate rest) db
  ∧ run (update parse1 errorMessage authorization id labelIdList dueDate userId
                newProjectId newSectionId rest) db
    = run (update parse2 errorMessage authorization id labelIdList dueDate userId
                  newProjectId newSectionId rest) db.
Proof.
  intros Hf. split.
  - unfold create. async. by rewrite Hf.
  - unfold update. async. by rewrite Hf.
Qed.

(** What a successful [update] committed. *)
Lemma update_resolved (db db' : DB) (id : Z) (labelIdList : jsval)
    (dueDate : option string) (userId : Z) (projectId sectionId : option Z)
    (rest : Rest) (b : bool) :
  run (update JSON_parse errorMessage authorization id labelIdList dueDate userId
              projectId sectionId rest) db
  = (db', inr b) →
  let vals := {| v_dueDate := dueDate; v_projectId := projectId;
                 v_sectionId := sectionId; v_rest := rest |} in
  is_Some (tasks db !! id)
  ∧ ((truthy labelIdList = false ∧ db' = apply_write (UpdateTask id vals) db)
     ∨ (truthy labelIdList = true
        ∧ ∃ v ids,
            JSON_parse (ToString labelIdList) = Some v
            ∧ toInstanceArray v = Some ids
            ∧ forallb (fun l => bool_decide (l ∈ labels db)) ids = true
            ∧ db' = apply_write (SetLabels id ids)
                                (apply_write (UpdateTask id vals) db))).
Proof.
  unfold update. async.
  destruct (tasks db !! id) as [row|] eqn:Hrow; cbn; [|by intros [=]].
  destruct (authorization_check.isTaskOwner authorization db id userId); cbn;
    [|by intros [=]].
  rewrite Hrow.
  destruct (references_ok db _); cbn; [|by intros [=]].
  destruct (truthy labelIdList); cbn.
  - destruct (JSON_parse (ToString labelIdList)) as [v|]; cbn; [|by intros [=]].
    destruct (toInstanceArray v) as [ids|] eqn:Hids; cbn; [|by intros [=]].
    destruct (forallb _ ids) eqn:Hall; cbn; [|by intros [=]].
    intros [= <- <-]. split; [done|]. right. split; [done|]. by exists v, ids.
  - intros [= <- <-]. split; [done|]. by left.
Qed.

(** X7: a successful [update] leaves in the row the values sent, each field
    that was not sent keeping its value, and replaces the labels of the task by
    those listed; without a label list the labels stay as they were. *)
Theorem update_merges (db db' : DB) (id : Z) (labelIdList : jsval)
    (dueDate : option string) (userId : Z) (projectId sectionId : option Z)
    (rest : Rest) (b : bool) :
  run (update JSON_parse errorMessage authorization id labelIdList dueDate userId
              projectId sectionId rest) db
  = (db', inr b) →
  ∃ old new,
    tasks db !! id = Some old
    ∧ tasks db' !! id = Some new
    ∧ task.title new = (if r_title rest is Some s then Some s else task.title old)
    ∧ task.isDone new = default (task.isDone old) (r_isDone rest)
    ∧ task.position new = default (task.position old) (r_position rest)
    ∧ task.dueDate new = (if dueDate is Some d then Some d else task.dueDate old)
    ∧ task.sectionId new = default (task.sectionId old) sectionId
    ∧ task.projectId new = default (task.projectId old) projectId
    ∧ task.parentId new = (if r_parentId rest is Some p then Some p
                           else task.parentId old)
    ∧ (truthy labelIdList = false → task_labels db' = task_labels db)
    ∧ (truthy labelIdList = true →
       ∃ v ids, JSON_parse (ToString labelIdList) = Some v
                ∧ toInstanceArray v = Some ids
                ∧ task_labels db' !! id = Some (list_to_set ids)).
Proof.
  intros [[old Hold] Hout]%update_resolved.
  set (vals := {| v_dueDate := dueDate; v_projectId := projectId;
                  v_sectionId := sectionId; v_rest := rest |}) in *.
  exists old, (set_values vals old).
  assert (alter (set_values vals) id (tasks db) !! id = Some (set_values vals old))
    as Hnew by (by rewrite lookup_alter_eq, Hold).
  destruct Hout as [[Hf ->]|(Ht & v & ids & Hv & Hids & _ & ->)]; cbn.
  - split_and!; try done. intros Ht. by rewrite Ht in Hf.
  - split_and!; try done.
    + intros Hf. by rewrite Hf in Ht.
    + intros _. exists v, ids. split_and!; [done|done|apply lookup_insert_eq].
Qed.

(** X8: however [update] ends, it adds and deletes no task, touches no task
    but the one named and no labels but those of that task, and leaves the
    projects, the sections and the label table alone. *)
Theorem update_touches_one_task (db db' : DB) (id : Z) (labelIdList : jsval)
    (dueDate : option string) (userId : Z) (projectId sectionId : option Z)
    (rest : Rest) (r : JSError + bool) :
  run (update JSON_parse errorMessage authorization id labelIdList dueDate userId
              projectId sectionId rest) db
  = (db', r) →
  dom (tasks db') = dom (tasks db)
  ∧ (∀ k, k ≠ id → tasks db' !! k = tasks db !! k)
  ∧ (∀ k, k ≠ id → task_labels db' !! k = task_labels db !! k)
  ∧ projects db' = projects db
  ∧ sections db' = sections db
  ∧ labels db' = labels db.
Proof.
  intros [->|[->|(ids & _ & _ & _ & ->)]]%update_outcome; cbn.
  - done.
  - split_and!; try done.
    + apply dom_alter_L.
    + intros k Hk. by apply lookup_alter_ne.
  - split_and!; try done.
    + apply dom_alter_L.
    + intros k Hk. by apply lookup_alter_ne.
    + intros k Hk. by apply lookup_insert_ne.
Qed.

End service_extras.

(** X9: what [create] made, its caller can read: after a successful [create]
    (ownership being the chains of the specification), the new task sits under
    a key that was free, and [retrieveById] by the same user on that key
    resolves with it, in the project and the section it was created in and
    with the due date sent. *)
Theorem create_then_retrieveById (JSON_parse : string → option jsval)
    (errorMessage : error_messages.t) (db db' : DB)
    (projectId sectionId userId : Z) (labelIdList : jsval)
    (dueDate : option string) (rest : Rest) (b : bool) :
  run (create JSON_parse errorMessage ownership projectId sectionId userId
              labelIdList dueDate rest) db
  = (db', inr b) →
  ∃ id v,
    tasks db !! id = None
    ∧ run (retrieveById errorMessage ownership id userId) db' = (db', inr v)
    ∧ pk (self v) = id
    ∧ task.projectId (row (self v)) = projectId
    ∧ task.sectionId (row (self v)) = sectionId
    ∧ task.dueDate (row (self v)) = dueDate.
Proof.
  intros Hrun.
  destruct (create_success _ _ _ _ _ _ _ _ _ _ _ _ Hrun)
    as (_ & _ & Hown & _ & _ & Hrow & _).
  set (id := next_id (tasks db)) in *.
  set (new := new_row _ _ _ _ _) in *.
  assert (projects db' = projects db) as Hprojects.
  { by destruct (create_outcome _ _ _ _ _ _ _ _ _ _ _ _ Hrun)
      as [[_ ->]|(_ & v & ids & _ & _ & _ & ->)]. }
  assert (tasks db' !! id = Some new) as Hnew.
  { rewrite Hrow. apply lookup_insert_eq. }
  destruct (retrieveById_self errorMessage ownership db' id userId new Hnew)
    as (v & Hv & Hself).
  { cbn. rewrite Hnew. unfold creator_is. rewrite Hprojects. exact Hown. }
  exists id, v. rewrite Hself. split_and!; try done. apply next_id_fresh.
Qed.

(** X10: two successful calls of [create] for the same section, neither
    sending a position of its own and with no other write between them, each
    add one task under a key that was free, and the second task gets the
    position just after that of the first. *)
Theorem create_twice_consecutive (JSON_parse : string → option jsval)
    (errorMessage : error_messages.t) (authorization : authorization_check.t)
    (db db1 db2 : DB) (sectionId : Z)
    (projectId1 userId1 projectId2 userId2 : Z) (labelIdList1 labelIdList2 : jsval)
    (dueDate1 dueDate2 : option string) (rest1 rest2 : Rest) (b1 b2 : bool) :
  run (create JSON_parse errorMessage authorization projectId1 sectionId userId1
              labelIdList1 dueDate1 rest1) db
  = (db1, inr b1) →
  run (create JSON_parse errorMessage authorization projectId2 sectionId userId2
              labelIdList2 dueDate2 rest2) db1
  = (db2, inr b2) →
  r_position rest1 = None →
  r_position rest2 = None →
  ∃ id1 id2 first second,
    tasks db !! id1 = None
    ∧ tasks db1 = <[id1 := first]> (tasks db)
    ∧ tasks db1 !! id2 = None
    ∧ tasks db2 = <[id2 := second]> (tasks db1)
    ∧ task.position second = task.position first + 1.
Proof.
  intros Hrun1 Hrun2 Hpos1 Hpos2.
  destruct (create_success _ _ _ _ _ _ _ _ _ _ _ _ Hrun1)
    as (_ & _ & _ & _ & _ & Hrow1 & _).
  destruct (create_success _ _ _ _ _ _ _ _ _ _ _ _ Hrun2)
    as (_ & _ & _ & _ & _ & Hrow2 & _).
  set (id1 := next_id (tasks db)) in *.
  set (id2 := next_id (tasks db1)) in *.
  set (m0 := foldl _ 0 (tasks_of_section db sectionId)) in *.
  set (m1 := foldl _ 0 (tasks_of_section db1 sectionId)) in *.
  set (first := new_row _ _ _ (m0 + 1) rest1) in *.
  set (second := new_row _ _ _ (m1 + 1) rest2) in *.
  assert (tasks db1 !! id1 = Some first) as Hfirst.
  { rewrite Hrow1. apply lookup_insert_eq. }
  exists id1, id2, first, second.
  split; [apply next_id_fresh|]. split; [exact Hrow1|].
  split; [apply next_id_fresh|]. split; [exact Hrow2|].
  assert (∀ d t, t ∈ tasks_of_section d sectionId ↔
                 tasks d !! t.1 = Some t.2 ∧ task.sectionId t.2 = sectionId) as Hin.
  { intros d [k r]. unfold tasks_of_section.
    rewrite list_elem_of_filter, elem_of_map_to_list. cbn. tauto. }
  pose proof (maxPosition_spec (tasks_of_section db sectionId) 0) as (Hge0 & Hub0 & _).
  pose proof (maxPosition_spec (tasks_of_section db1 sectionId) 0) as (_ & Hub1 & Hwit1).
  fold m0 in Hge0, Hub0. fold m1 in Hub1, Hwit1.
  assert (task.position first = m0 + 1) as Hp1 by (cbn; by rewrite Hpos1).
  assert (task.position second = m1 + 1) as Hp2 by (cbn; by rewrite Hpos2).
  assert (m0 + 1 ≤ m1) as Hle.
  { rewrite <- Hp1. apply (Hub1 (id1, first)), Hin. by split. }
  assert (m1 ≤ m0 + 1) as Hge.
  { destruct Hwit1 as [->|(t & [Ht Hs]%Hin & ->)]; [lia|].
    rewrite Hrow1 in Ht. destruct (decide (t.1 = id1)) as [E|N].
    - rewrite E, lookup_insert_eq in Ht. injection Ht as <-. lia.
    - rewrite lookup_insert_ne in Ht by done.
      assert (task.position t.2 ≤ m0) by (apply Hub0, Hin; by split). lia. }
  lia.
Qed.

Lemma detach_idemp (id : Z) (r : task.t) : detach id (detach id r) = detach id r.
Proof.
  unfold detach. destruct (bool_decide (task.parentId r = Some id)) eqn:E; cbn.
  - by rewrite bool_decide_eq_false_2.
  - by rewrite E.
Qed.

(** X11: a task that [remove] deleted is gone for [retrieveById], and a second
    [remove] of the same key deletes no row and changes nothing. *)
Theorem remove_then_nothing_left (errorMessage : error_messages.t)
    (authorization : authorization_check.t) (db : DB) (id userId : Z) :
  let db' := (run (remove id) db).1 in
  run (retrieveById errorMessage authorization id userId) db'
  = (db', inl {| class := Error;
                 message := error_messages.NOT_FOUND_ERROR errorMessage "task";
                 status := Some 404 |})
  ∧ run (remove id) db' = (db', inr 0).
Proof.
  cbv zeta.
  assert (tasks (run (remove id) db).1 !! id = None) as Hgone.
  { unfold remove. async. by rewrite lookup_fmap, lookup_delete_eq. }
  split.
  - unfold retrieveById, findByPk_included. async.
    unfold remove in Hgone. revert Hgone. async. by intros ->.
  - unfold remove at 1. async. revert Hgone. unfold remove. async. intros Hgone.
    rewrite Hgone. f_equal. destruct db as [ps ss ts ls tl]. cbn in *. f_equal.
    + apply map_eq. intros k. rewrite !lookup_fmap.
      destruct (decide (k = id)) as [->|Hne].
      * by rewrite !lookup_delete_eq.
      * rewrite !lookup_delete_ne, lookup_fmap, lookup_delete_ne by done.
        destruct (ts !! k) as [r|]; cbn; [|done]. f_equal. apply detach_idemp.
    + apply map_eq. intros k. destruct (decide (k = id)) as [->|Hne].
      * by rewrite !lookup_delete_eq.
      * by rewrite !lookup_delete_ne.
Qed.

(** X12: [retrieveAll] does not ask for top-level tasks only: a sub-task that
    is itself not done and in a project of the user is returned twice, as an
    entry of its own and under its parent, when the parent is returned. *)
Theorem retrieveAll_lists_subtask_twice (db : DB) (userId parent child : Z)
    (r rc : task.t) (p pc : project.t) :
  tasks db !! parent = Some r →
  task.isDone r = false →
  projects db !! task.projectId r = Some p →
  project.creatorId p = userId →
  tasks db !! child = Some rc →
  task.parentId rc = Some parent →
  task.isDone rc = false →
  projects db !! task.projectId rc = Some pc →
  project.creatorId pc = userId →
  ∃ loaded,
    run (retrieveAll userId) db = (db, inr loaded)
    ∧ (∃ v, v ∈ loaded ∧ pk (self v) = child ∧ row (self v) = rc)
    ∧ (∃ v, v ∈ loaded ∧ pk (self v) = parent
            ∧ ∃ i, i ∈ its_tasks v ∧ pk i = child ∧ row i = rc).
Proof.
  intros Hr Hdone Hp Hcreator Hrc Hparent Hcdone Hpc Hccreator.
  unfold retrieveAll. async.
  set (parents := filter (fun kr => selected db userId kr) (map_to_list (tasks db))).
  assert (NoDup (fst <$> parents)) as Hnd.
  { apply (sublist_NoDup _ (fst <$> map_to_list (tasks db))).
    - apply NoDup_fst_map_to_list.
    - apply fmap_sublist, sublist_filter. }
  assert ((parent, r) ∈ parents) as Hin.
  { apply list_elem_of_filter. split; [|by apply elem_of_map_to_list].
    apply selected_spec. split; [done|]. by exists p. }
  assert ((child, rc) ∈ parents) as Hcin.
  { apply list_elem_of_filter. split; [|by apply elem_of_map_to_list].
    apply selected_spec. split; [done|]. by exists pc. }
  destruct (load_selves db parents Hnd) as [_ Hload].
  eexists. split; [reflexivity|]. split.
  - eexists. split; [apply Hload; exists (child, rc); split; [done|reflexivity]|done].
  - eexists. split; [apply Hload; exists (parent, r); split; [done|reflexivity]|].
    split; [done|]. cbn [its_tasks fst].
    exists (instance_of db (child, rc)). split; [|done].
    apply list_elem_of_fmap_2.
    rewrite (load_subtasks db parents (parent, r) Hnd Hin).
    by apply (elem_of_children db parent (child, rc)).
Qed.

(** X21: whatever [retrieveAll] lists for a user, [retrieveById] grants to the
    same user (ownership being the chains of the specification): it resolves,
    with the same task and labels. *)
Theorem listed_tasks_are_retrievable (errorMessage : error_messages.t) (db : DB)
    (userId : Z) (loaded : list Loaded) (v : Loaded) :
  run (retrieveAll userId) db = (db, inr loaded) →
  v ∈ loaded →
  ∃ v', run (retrieveById errorMessage ownership (pk (self v)) userId) db
        = (db, inr v')
        ∧ self v' = self v.
Proof.
  unfold retrieveAll. async. intros [= <-] Hv.
  set (parents := filter (fun kr => selected db userId kr) (map_to_list (tasks db)))
    in *.
  assert (NoDup (fst <$> parents)) as Hnd.
  { apply (sublist_NoDup _ (fst <$> map_to_list (tasks db))).
    - apply NoDup_fst_map_to_list.
    - apply fmap_sublist, sublist_filter. }
  destruct (load_selves db parents Hnd) as [_ Hload].
  apply Hload in Hv as ([k r] & Hp & ->). cbn [self pk instance_of fst].
  apply list_elem_of_filter in Hp as [Hsel Hrow].
  apply elem_of_map_to_list in Hrow.
  unfold selected in Hsel. apply andb_True in Hsel as [_ Hcreator].
  apply Is_true_eq_true in Hcreator. cbn in Hcreator.
  apply (retrieveById_self errorMessage ownership db k userId r Hrow).
  cbn. by rewrite Hrow.
Qed.

(** * Further properties of the client store *)

Lemma get_prop_absent (u : list (string * jsval)) (key : string) :
  (∀ v, (key, v) ∉ u) → get_prop u key = JSundefined.
Proof.
  induction u as [|[k v] u IH]; intros Habsent; [done|]. cbn.
  destruct (String.eqb_spec k key) as [->|_].
  - destruct (Habsent v). left.
  - apply IH. intros v' Hv'. apply (Habsent v'). by right.
Qed.

(** X13: whatever the authorize call does, [checkUser] makes one effect and
    then replaces the route once, as its last effect, without changing
    [location.pathname] itself; the route is never [/], and it is [/login]
    exactly when the authorize call failed. *)
Theorem checkUser_navigates_once (api : store.Authorize) (p : store.Page) :
  let p' := store.checkUser api p in
  store.pathname p' = store.pathname p
  ∧ ∃ e path,
      store.log p' = (store.log p ++ [e; store.Replaced path])%list
      ∧ (∀ q, e ≠ store.Replaced q)
      ∧ path ≠ "/"
      ∧ (path = "/login" ↔ api = store.Rejected).
Proof.
  destruct api as [|u]; cbn.
  - split; [done|]. eexists _, _. rewrite <- app_assoc. by split_and!.
  - destruct (String.eqb_spec (store.pathname p) "/") as [E1|N1];
      destruct (String.eqb_spec (store.pathname p) "/login") as [E2|N2];
      cbn; (split; [done|]); eexists _, _; rewrite <- app_assoc;
      (split; [reflexivity|]); split_and!; try done; split; done.
Qed.

(** X14: [SET_USER] takes nothing over from the state it replaces: a field
    the user object sent by the server lacks is stored as [undefined],
    whatever the store held before. *)
Theorem checkUser_missing_field (u : list (string * jsval)) (p : store.Page) :
  let stored := store.user (store.vuex (store.checkUser (store.Resolved u) p)) in
  ((∀ v, ("id", v) ∉ u) → store.id stored = JSundefined)
  ∧ ((∀ v, ("name", v) ∉ u) → store.name stored = JSundefined)
  ∧ ((∀ v, ("email", v) ∉ u) → store.email stored = JSundefined).
Proof.
  assert (store.user (store.vuex (store.checkUser (store.Resolved u) p))
          = {| store.id := get_prop u "id"; store.name := get_prop u "name";
               store.email := get_prop u "email" |}) as ->.
  { unfold store.checkUser. by destruct (_ || _). }
  cbn. split_and!; apply get_prop_absent.
Qed.

(** X15: [logout] removes the token from [localStorage] and nothing else,
    asks for the page [/login] last, and leaves the user held in the store
    state as it is; a second [logout] finds no token to remove. *)
Theorem logout_clears_token (b : store.Browser) :
  let b' := store.logout b in
  store.localStorage b' !! "token" = None
  ∧ (∀ k, k ≠ "token" → store.localStorage b' !! k = store.localStorage b !! k)
  ∧ last (store.loaded b') = Some "/login"
  ∧ store.vuex (store.page b') = store.vuex (store.page b)
  ∧ store.localStorage (store.logout b') = store.localStorage b'.
Proof.
  cbn. split_and!.
  - apply lookup_delete_eq.
  - intros k Hk. by apply lookup_delete_ne.
  - by rewrite last_snoc.
  - done.
  - apply map_eq. intros k. destruct (decide (k = "token")) as [->|Hne].
    + by rewrite !lookup_delete_eq.
    + by rewrite !lookup_delete_ne.
Qed.

(** * Properties of the task cell *)

(** X16: toggling the completion in a live cell whose task is alive sets the
    flag of that task and of no other, keeps its title, and calls the cell's
    handler once with the task; the next [updateConfiguration] shows the
    title with the new completion. *)
Theorem toggle_then_update (w : cell.World) (r : nat) (t : cell.Task) (value : bool) :
  cell.task (cell.the_cell w) = Some r →
  cell.heap w !! r = Some t →
  let w' := cell.updateConfiguration (cell.toggled true value w) in
  cell.heap w' !! r = Some {| cell.title := cell.title t; cell.isCompleted := value |}
  ∧ (∀ r', r' ≠ r → cell.heap w' !! r' = cell.heap w !! r')
  ∧ cell.contentConfiguration (cell.the_cell w')
    = Some {| cell.c_title := Some (cell.title t); cell.c_isCompleted := Some value |}
  ∧ (cell.completeHandler (cell.the_cell w) = true →
     cell.calls w' = (cell.calls w ++ [Some r])%list)
  ∧ (cell.completeHandler (cell.the_cell w) = false → cell.calls w' = cell.calls w).
Proof.
  intros Htask Hheap.
  assert (cell.weak_task w = Some r) as Hweak.
  { unfold cell.weak_task. rewrite Htask. cbn. by rewrite Hheap. }
  unfold cell.toggled, cell.updateConfiguration. cbn. rewrite Hweak. cbn.
  assert (alter (fun t => {| cell.title := cell.title t; cell.isCompleted := value |})
                r (cell.heap w) !! r
          = Some {| cell.title := cell.title t; cell.isCompleted := value |}) as Hnew.
  { by rewrite lookup_alter_eq, Hheap. }
  split_and!.
  - exact Hnew.
  - intros r' Hr'. by apply lookup_alter_ne.
  - unfold cell.weak_task. cbn. rewrite Htask. cbn. rewrite Hnew. cbn.
    by rewrite Hnew.
  - by intros ->.
  - by intros ->.
Qed.

(** X17: a cell whose task is gone (never set, or deallocated) shows neither
    title nor completion; toggling it changes no task, and the cell's handler
    is still called, with [nil]. *)
Theorem cell_without_task (w : cell.World) (value : bool) :
  cell.weak_task w = None →
  cell.contentConfiguration (cell.the_cell (cell.updateConfiguration w))
  = Some {| cell.c_title := None; cell.c_isCompleted := None |}
  ∧ cell.heap (cell.toggled true value w) = cell.heap w
  ∧ (cell.completeHandler (cell.the_cell w) = true →
     cell.calls (cell.toggled true value w) = (cell.calls w ++ [None])%list).
Proof.
  intros Hweak. unfold cell.updateConfiguration, cell.toggled. cbn.
  rewrite Hweak. cbn. split_and!; [done|done|by intros ->].
Qed.

(** * The further properties on the sample data *)

Lemma missing_task_is_not_found_witness :
  run (retrieveById sample_messages ownership 9 10) sample.db
  = (sample.db, inl {| class := Error; message := "task not found";
                       status := Some 404 |}).
Proof.
  apply (missing_task_is_not_found json.parse sample_messages ownership sample.db
           9 10 JSundefined None None None sample.no_rest).
  reflexivity.
Defined.

Lemma retrieveById_owner_witness :
  ∃ v, run (retrieveById sample_messages ownership 1 10) sample.db = (sample.db, inr v)
       ∧ pk (self v) = 1
       ∧ Sorted Z.le (task.position ∘ row <$> its_tasks v).
Proof.
  destruct (retrieveById_owner sample_messages ownership sample.db 1 10
              (sample.a_task 2 false 1 1 None))
    as (v & Hrun & Hself & _ & _ & Hsorted); [reflexivity|reflexivity|].
  exists v. split_and!; [exact Hrun|by rewrite Hself|exact Hsorted].
Defined.

Lemma create_guards_witness :
  run (create json.parse sample_messages ownership 9 1 10 JSundefined None
              sample.no_rest) sample.db
  = (sample.db, inl {| class := Error; message := "project not found";
                       status := Some 404 |}).
Proof.
  apply (create_guards json.parse sample_messages ownership sample.db 9 1 10
           JSundefined None sample.no_rest).
  reflexivity.
Defined.

Lemma create_failure_writes_nothing_witness :
  (run (create json.parse sample_messages ownership 1 1 10 (JSstring "[9]") None
               sample.no_rest) sample.db).1
  = sample.db.
Proof.
  apply (create_failure_writes_nothing json.parse sample_messages ownership
           sample.db _ 1 1 10 (JSstring "[9]") None sample.no_rest
           constraint_error).
  vm_compute. reflexivity.
Defined.


Lemma no_labels_no_parsing_witness :
  run (create json.parse sample_messages ownership 1 1 10 JSnull None
              sample.no_rest) sample.db
  = run (create (fun _ => None) sample_messages ownership 1 1 10 JSnull None
                sample.no_rest) sample.db.
Proof.
  apply (no_labels_no_parsing sample_messages ownership json.parse (fun _ => None)
           sample.db 1 1 10 1 JSnull None None None sample.no_rest).
  reflexivity.
Defined.

Lemma update_merges_witness :
  (∃ old new,
     tasks sample.db !! 1 = Some old
     ∧ tasks (run (update json.parse sample_messages ownership 1 (JSstring "[5]")
                          (Some "2020-12-01") 10 None None sample.no_rest)
                  sample.db).1 !! 1 = Some new
     ∧ task.position new = task.position old
     ∧ task.dueDate new = Some "2020-12-01")
  ∧ (∃ v ids,
       toInstanceArray v = Some ids
       ∧ v = JSarray [JSstring "5"]
       ∧ task_labels
           (run (update (fun _ => Some (JSarray [JSstring "5"])) sample_messages
                        ownership 1 (JSstring "keys sent as strings") None 10
                        None None sample.no_rest) sample.db).1 !! 1
         = Some (list_to_set ids)
       ∧ list_to_set ids = ({[ 5 ]} : gset Z)).
Proof.
  split.
  - destruct (update_merges json.parse sample_messages ownership sample.db
                (run (update json.parse sample_messages ownership 1 (JSstring "[5]")
                             (Some "2020-12-01") 10 None None sample.no_rest)
                     sample.db).1
                1 (JSstring "[5]") (Some "2020-12-01") 10 None None sample.no_rest
                true)
      as (old & new & Hold & Hnew & _ & _ & Hpos & Hdue & _);
      [vm_compute; reflexivity|].
    by exists old, new.
  - destruct (update_merges (fun _ => Some (JSarray [JSstring "5"])) sample_messages
                ownership sample.db
                (run (update (fun _ => Some (JSarray [JSstring "5"])) sample_messages
                             ownership 1 (JSstring "keys sent as strings") None 10
                             None None sample.no_rest) sample.db).1
                1 (JSstring "keys sent as strings") None 10 None None
                sample.no_rest true)
      as (_ & _ & _ & _ & _ & _ & _ & _ & _ & _ & _ & _ & H);
      [vm_compute; reflexivity|].
    destruct (H eq_refl) as (v & ids & [= <-] & Hids & Hl).
    exists (JSarray [JSstring "5"]), ids. split_and!; [done|done|done|].
    vm_compute in Hids. injection Hids as <-. cbn. apply (right_id_L ∅ (∪)).
Defined.

Lemma update_touches_one_task_witness :
  dom (tasks (run (update json.parse sample_messages ownership 1 (JSstring "[")
                          (Some "2020-12-01") 10 None None sample.no_rest)
                  sample.db).1)
  = dom (tasks sample.db).
Proof.
  apply (update_touches_one_task json.parse sample_messages ownership sample.db _
           1 (JSstring "[") (Some "2020-12-01") 10 None None sample.no_rest
           (inl syntax_error)).
  vm_compute. reflexivity.
Defined.

Lemma update_failure_witness :
  (run (update json.parse sample_messages ownership 1 (JSstring "[5]") None 20
               None None sample.no_rest) sample.db).1
  = sample.db
  ∨ (truthy (JSstring "[5]") = true
     ∧ (run (update json.parse sample_messages ownership 1 (JSstring "[5]") None 20
                    None None sample.no_rest) sample.db).1
       = apply_write (UpdateTask 1 {| v_dueDate := None; v_projectId := None;
                                      v_sectionId := None;
                                      v_rest := sample.no_rest |}) sample.db).
Proof.
  apply (update_failure json.parse sample_messages ownership sample.db _ 1
           (JSstring "[5]") None 20 None None sample.no_rest
           (forbidden sample_messages)).
  vm_compute. reflexivity.
Defined.

Lemma create_unowned_section_text_witness :
  run (create json.parse text_messages ownership 1 2 10 JSundefined None
              sample.no_rest) sample.db
  = (sample.db, inl {| class := TypeError;
                       message := "errorMessage.FORBIDDEN_ERROR is not a function";
                       status := None |}).
Proof.
  apply (create_unowned_section_text json.parse text_messages ownership sample.db
           1 2 10 JSundefined None sample.no_rest "forbidden").
  - vm_compute. eauto.
  - reflexivity.
  - vm_compute. eauto.
  - reflexivity.
  - reflexivity.
Defined.

Lemma create_then_retrieveById_witness :
  ∃ id v,
    tasks sample.db !! id = None
    ∧ run (retrieveById sample_messages ownership id 10)
          (run (create json.parse sample_messages ownership 1 1 10 JSundefined
                       (Some "2020-12-01") sample.no_rest) sample.db).1
      = ((run (create json.parse sample_messages ownership 1 1 10 JSundefined
                      (Some "2020-12-01") sample.no_rest) sample.db).1, inr v)
    ∧ pk (self v) = id
    ∧ task.dueDate (row (self v)) = Some "2020-12-01".
Proof.
  destruct (create_then_retrieveById json.parse sample_messages sample.db
              (run (create json.parse sample_messages ownership 1 1 10 JSundefined
                           (Some "2020-12-01") sample.no_rest) sample.db).1
              1 1 10 JSundefined (Some "2020-12-01") sample.no_rest true)
    as (id & v & Hfree & Hv & Hpk & _ & _ & Hdue); [vm_compute; reflexivity|].
  by exists id, v.
Defined.

Lemma create_twice_consecutive_witness :
  ∃ id1 id2 first second,
    tasks sample.db !! id1 = None
    ∧ (run (create json.parse sample_messages ownership 1 1 10 JSundefined None
                   sample.no_rest) sample.db).1.(tasks) !! id1 = Some first
    ∧ (run (create json.parse sample_messages ownership 1 1 10 JSundefined None
                   sample.no_rest)
           (run (create json.parse sample_messages ownership 1 1 10 JSundefined
                        None sample.no_rest) sample.db).1).1.(tasks) !! id2
      = Some second
    ∧ id1 ≠ id2
    ∧ task.position second = task.position first + 1.
Proof.
  destruct (create_twice_consecutive json.parse sample_messages ownership sample.db
              (run (create json.parse sample_messages ownership 1 1 10 JSundefined
                           None sample.no_rest) sample.db).1
              (run (create json.parse sample_messages ownership 1 1 10 JSundefined
                           None sample.no_rest)
                   (run (create json.parse sample_messages ownership 1 1 10
                                JSundefined None sample.no_rest) sample.db).1).1
              1 1 10 1 10 JSundefined JSundefined None None
              sample.no_rest sample.no_rest true true)
    as (id1 & id2 & first & second & Hfree1 & Hrow1 & Hfree2 & Hrow2 & Hpos);
    [vm_compute; reflexivity|vm_compute; reflexivity|reflexivity|reflexivity|].
  exists id1, id2, first, second. split_and!; [exact Hfree1| | | |exact Hpos].
  - rewrite Hrow1. apply lookup_insert_eq.
  - rewrite Hrow2. apply lookup_insert_eq.
  - intros <-. rewrite Hrow1, lookup_insert_eq in Hfree2. discriminate Hfree2.
Defined.

Lemma retrieveAll_lists_subtask_twice_witness :
  ∃ loaded,
    run (retrieveAll 10) sample.nested = (sample.nested, inr loaded)
    ∧ (∃ v, v ∈ loaded ∧ pk (self v) = 2)
    ∧ (∃ v, v ∈ loaded ∧ pk (self v) = 1 ∧ ∃ i, i ∈ its_tasks v ∧ pk i = 2).
Proof.
  destruct (retrieveAll_lists_subtask_twice sample.nested 10 1 2
              (sample.a_task 1 false 1 1 None) (sample.a_task 1 false 1 1 (Some 1))
              {| project.creatorId := 10 |} {| project.creatorId := 10 |})
    as (loaded & Hrun & (v & Hv & Hk & _) & (v' & Hv' & Hk' & i & Hi & Hki & _));
    try reflexivity.
  exists loaded. split; [exact Hrun|]. split; [by exists v|].
  exists v'. split_and!; [done|done|]. by exists i.
Defined.

Lemma checkUser_missing_field_witness :
  store.email (store.user (store.vuex
    (store.checkUser (store.Resolved [("id", JSnumber 7); ("name", JSstring "whale")])
                     sample.page)))
  = JSundefined.
Proof.
  apply (checkUser_missing_field [("id", JSnumber 7); ("name", JSstring "whale")]
           sample.page).
  intros v Hv. repeat (apply elem_of_cons in Hv as [[=]|Hv]).
  by apply elem_of_nil in Hv.
Defined.

Lemma logout_clears_token_witness :
  store.localStorage (store.logout sample.browser) !! "theme" = Some "dark".
Proof.
  rewrite (proj1 (proj2 (logout_clears_token sample.browser)) "theme");
    [reflexivity|discriminate].
Defined.

Lemma toggle_then_update_witness :
  cell.contentConfiguration
    (cell.the_cell (cell.updateConfiguration (cell.toggled true true sample.world)))
  = Some {| cell.c_title := Some "buy milk"; cell.c_isCompleted := Some true |}.
Proof.
  apply (toggle_then_update sample.world 1%nat
           {| cell.title := "buy milk"; cell.isCompleted := false |} true);
    reflexivity.
Defined.

Lemma cell_without_task_witness :
  cell.heap (cell.toggled true true
               {| cell.heap := cell.heap sample.world;
                  cell.the_cell := {| cell.task := Some 7%nat;
                                      cell.completeHandler := true;
                                      cell.contentConfiguration := None |};
                  cell.calls := [] |})
  = cell.heap sample.world.
Proof.
  apply (cell_without_task
           {| cell.heap := cell.heap sample.world;
              cell.the_cell := {| cell.task := Some 7%nat;
                                  cell.completeHandler := true;
                                  cell.contentConfiguration := None |};
              cell.calls := [] |} true).
  reflexivity.
Defined.

Lemma listed_tasks_are_retrievable_witness :
  ∃ v', run (retrieveById sample_messages ownership 1 10) sample.nested
        = (sample.nested, inr v')
        ∧ pk (self v') = 1.
Proof.
  destruct (listed_tasks_are_retrievable sample_messages sample.nested 10
              (load sample.nested
                    (filter (fun kr => selected sample.nested 10 kr)
                            (map_to_list (tasks sample.nested))))
              {| self := instance_of sample.nested (1, sample.a_task 1 false 1 1 None);
                 its_tasks := [instance_of sample.nested
                                 (2, sample.a_task 1 false 1 1 (Some 1))] |})
    as (v' & Hrun & Hself).
  - reflexivity.
  - vm_compute. first [left | right; left].
  - exists v'. split; [exact Hrun|]. by rewrite Hself.
Defined.
